(** * Cofe: the coffee order builder of [src/main.py]

    A shallow embedding of [CoffeeOrder] and [CoffeeOrderBuilder].

    - Python [float] is IEEE 754 binary64 with round-to-nearest-even: it is
      embedded as Rocq's primitive [float], whose operations are the same
      ones, so prices are computed bit for bit as CPython computes them.
    - Python [int] is [Z], [str] is [string] (the bytes of the UTF-8 source
      text), [List[str]] and [Tuple[str, ...]] are [list string],
      [Optional[str]] is [option string], the class-level dicts are
      association lists in the order of the source.
    - A method is a computation in the monad [M]: it reads and writes the
      builder object, allocates [CoffeeOrder] objects in a store, and either
      returns or raises. *)

From Stdlib Require Import ZArith List String Ascii Bool Lia QArith DecimalString.
From Stdlib Require Import Floats.
Import ListNotations.

(* Python reads the literals 1.2, 1.4 and 0.2 as the nearest binary64, which
   is also what the float notation does here. *)
Set Warnings "-inexact-float".

Open Scope string_scope.
Open Scope list_scope.
Open Scope Z_scope.

(** ** Python builtins used by the module *)

Module Py.

(** Exceptions the module's code can raise: [ValueError] by its own
    [raise] statements, [AssertionError] by its [assert]s, [KeyError] by a
    dict subscript and [OverflowError] by an int too large for a float. *)
Inductive exn : Type :=
| ValueError (msg : string)
| AssertionError
| KeyError (key : string)
| OverflowError.

Inductive result (A : Type) : Type :=
| Ok (a : A)
| Raise (e : exn).
Arguments Ok {A} a.
Arguments Raise {A} e.

(** [dict[str, V]] literals. *)
Definition dict (V : Type) : Type := list (string * V).

Fixpoint dict_find {V} (d : dict V) (k : string) : option V :=
  match d with
  | [] => None
  | (k', v) :: d' => if String.eqb k k' then Some v else dict_find d' k
  end.

(** [k in d] *)
Definition dict_contains {V} (d : dict V) (k : string) : bool :=
  match dict_find d k with Some _ => true | None => false end.

(** [d[k]] *)
Definition dict_getitem {V} (d : dict V) (k : string) : result V :=
  match dict_find d k with Some v => Ok v | None => Raise (KeyError k) end.

Definition keys {V} (d : dict V) : list string := map fst d.

(** [name in l] for a list of strings *)
Definition list_contains (l : list string) (name : string) : bool :=
  existsb (String.eqb name) l.

(** [len(l)] *)
Definition len {A} (l : list A) : Z := Z.of_nat (List.length l).

(** [sep.join(parts)] *)
Definition join (sep : string) (parts : list string) : string :=
  String.concat sep parts.

(** [str(n)], also what an f-string does with an int *)
Definition str_of_int (n : Z) : string := NilZero.string_of_int (Z.to_int n).

(** [float(n)]: the nearest binary64, ties to even; an int beyond the
    largest float raises OverflowError. *)
Definition float_of_int (n : Z) : result float :=
  match binary_normalize prec emax n 0 false with
  | S754_infinity _ => Raise OverflowError
  | sf => Ok (SF2Prim sf)
  end.

(** [n * x] with [n] an int and [x] a float: the int is converted first. *)
Definition int_mul_float (n : Z) (x : float) : result float :=
  match float_of_int n with
  | Ok fn => Ok (fn * x)%float
  | Raise e => Raise e
  end.

(** The integer nearest to [a / b] ([b > 0]), ties to the even one. *)
Definition div_half_even (a b : Z) : Z :=
  let q := a / b in
  match 2 * (a mod b) ?= b with
  | Lt => q
  | Gt => q + 1
  | Eq => if Z.even q then q else q + 1
  end.

(** The number of hundredths nearest to the exact value [m * 2^e]. *)
Definition hundredths (m : positive) (e : Z) : Z :=
  if 0 <=? e then Zpos m * 2 ^ e * 100
  else div_half_even (Zpos m * 100) (2 ^ (- e)).

(** [round(x, 2)].  CPython prints the exact value of [x] with two digits
    after the point, correctly rounded (ties to even), and reads the
    digits back as the nearest float; zeros, infinities and NaN are
    returned as they are.  Reading [n] hundredths back is the correctly
    rounded quotient [n / 100]. *)
Definition round2 (x : float) : float :=
  match Prim2SF x with
  | S754_finite s m e =>
      match hundredths m e with
      | Zpos n => SF2Prim (SFdiv prec emax (S754_finite s n 0) (S754_finite false 100 0))
      | _ => SF2Prim (S754_zero s)
      end
  | _ => x
  end.

(** The hundredths a float stands for once rounded to two places. *)
Definition cents (x : float) : Z :=
  match Prim2SF x with
  | S754_finite s m e => if s then - hundredths m e else hundredths m e
  | _ => 0
  end.

End Py.
Import Py.

(** ** The data model *)

(** [@dataclass(frozen=True) class CoffeeOrder] *)
Record CoffeeOrder : Type := mkCoffeeOrder {
  base : string;
  size : string;
  milk : string;
  syrups : list string;
  sugar : Z;
  iced : bool;
  price : float;
  description : string;
  extra_shots : Z
}.

(** The instance attributes of [CoffeeOrderBuilder], as [__init__] declares
    them. *)
Record CoffeeOrderBuilder : Type := mkCoffeeOrderBuilder {
  _base : option string;
  _size : option string;
  _milk : string;
  _syrups : list string;
  _sugar : Z;
  _iced : bool;
  _shots : Z
}.

(** *** Class attributes *)

Definition BASE_PRICES : dict float :=
  [ ("espresso", 200.0); ("americano", 250.0); ("latte", 300.0);
    ("cappuccino", 320.0) ]%float.

Definition SIZE_MULTIPLIERS : dict float :=
  [ ("small", 1.0); ("medium", 1.2); ("large", 1.4) ]%float.

Definition MILK_SURCHARGES : dict float :=
  [ ("none", 0.0); ("whole", 30.0); ("skim", 30.0); ("oat", 60.0);
    ("soy", 50.0) ]%float.

Definition SYRUP_PRICE : float := 40.0%float.
Definition SHOT_PRICE : float := 70.0%float.
Definition ICED_RATE : float := 0.2%float.

Definition MAX_SYRUPS : Z := 4.
Definition MAX_SUGAR : Z := 5.
Definition MAX_SHOTS : Z := 3.

Definition DEFAULT_MILK : string := "none".

(** ** The monad of method calls

    The world holds the one builder object the calls act on ([self]) and the
    store of the [CoffeeOrder] objects allocated so far; a reference to an
    order is its position in the store.  Orders are frozen, so the store
    only grows. *)

Definition ref : Type := nat.

Record world : Type := mkWorld {
  self : CoffeeOrderBuilder;
  store : list CoffeeOrder
}.

Definition M (A : Type) : Type := world -> result A * world.

Definition ret {A} (a : A) : M A := fun w => (Ok a, w).

Definition bind {A B} (m : M A) (f : A -> M B) : M B :=
  fun w =>
    match m w with
    | (Ok a, w') => f a w'
    | (Raise e, w') => (Raise e, w')
    end.

Definition raise {A} (e : exn) : M A := fun w => (Raise e, w).

Declare Scope py_scope.
Delimit Scope py_scope with py.
Notation "x <- m ;; k" := (bind m (fun x => k))
  (at level 100, m at next level, right associativity) : py_scope.
Notation "m ;; k" := (bind m (fun _ => k))
  (at level 100, right associativity) : py_scope.
Open Scope py_scope.

(** Reading [self.<attr>]. *)
Definition attr {A} (f : CoffeeOrderBuilder -> A) : M A :=
  fun w => (Ok (f (self w)), w).

(** An attribute assignment (or an in-place [append]) on [self]. *)
Definition assign (f : CoffeeOrderBuilder -> CoffeeOrderBuilder) : M unit :=
  fun w => (Ok tt, mkWorld (f (self w)) (store w)).

(** Evaluating an expression that may raise. *)
Definition eval {A} (r : result A) : M A := fun w => (r, w).

(** Constructing a [CoffeeOrder]: a new object at the end of the store. *)
Definition new (o : CoffeeOrder) : M ref :=
  fun w => (Ok (List.length (store w)), mkWorld (self w) (store w ++ [o])).

(** [if c: raise e] *)
Definition raise_if (c : bool) (e : exn) : M unit :=
  if c then raise e else ret tt.

Definition set_attr_base (v : option string) (b : CoffeeOrderBuilder) :=
  mkCoffeeOrderBuilder v (_size b) (_milk b) (_syrups b) (_sugar b) (_iced b) (_shots b).
Definition set_attr_size (v : option string) (b : CoffeeOrderBuilder) :=
  mkCoffeeOrderBuilder (_base b) v (_milk b) (_syrups b) (_sugar b) (_iced b) (_shots b).
Definition set_attr_milk (v : string) (b : CoffeeOrderBuilder) :=
  mkCoffeeOrderBuilder (_base b) (_size b) v (_syrups b) (_sugar b) (_iced b) (_shots b).
Definition set_attr_syrups (v : list string) (b : CoffeeOrderBuilder) :=
  mkCoffeeOrderBuilder (_base b) (_size b) (_milk b) v (_sugar b) (_iced b) (_shots b).
Definition set_attr_sugar (v : Z) (b : CoffeeOrderBuilder) :=
  mkCoffeeOrderBuilder (_base b) (_size b) (_milk b) (_syrups b) v (_iced b) (_shots b).
Definition set_attr_iced (v : bool) (b : CoffeeOrderBuilder) :=
  mkCoffeeOrderBuilder (_base b) (_size b) (_milk b) (_syrups b) (_sugar b) v (_shots b).
Definition set_attr_shots (v : Z) (b : CoffeeOrderBuilder) :=
  mkCoffeeOrderBuilder (_base b) (_size b) (_milk b) (_syrups b) (_sugar b) (_iced b) v.

(** ** The methods of [CoffeeOrderBuilder]

    Every fluent method ends in [return self]; with one builder in the
    world the returned reference carries nothing, so the methods return
    [unit] and a chain [b.f().g()] is [f ;; g]. *)

(** [__init__] *)
Definition init : CoffeeOrderBuilder :=
  mkCoffeeOrderBuilder None None DEFAULT_MILK [] 0 false 0.

Definition set_base (base : string) : M unit :=
  raise_if (negb (dict_contains BASE_PRICES base))
           (ValueError ("Недопустимая база: " ++ base)%string) ;;
  assign (set_attr_base (Some base)).

Definition set_size (size : string) : M unit :=
  raise_if (negb (dict_contains SIZE_MULTIPLIERS size))
           (ValueError ("Недопустимый размер: " ++ size)%string) ;;
  assign (set_attr_size (Some size)).

Definition set_milk (milk : string) : M unit :=
  raise_if (negb (dict_contains MILK_SURCHARGES milk))
           (ValueError ("Недопустимое молоко: " ++ milk)%string) ;;
  assign (set_attr_milk milk).

Definition add_syrup (name : string) : M unit :=
  held <- attr _syrups ;;
  if negb (list_contains held name) then
    raise_if (MAX_SYRUPS <=? len held) (ValueError "Превышен лимит сиропов") ;;
    assign (fun b => set_attr_syrups (_syrups b ++ [name]) b)
  else ret tt.

Definition set_sugar (teaspoons : Z) : M unit :=
  raise_if (negb ((0 <=? teaspoons) && (teaspoons <=? MAX_SUGAR)))
           (ValueError "Сахар должен быть в диапазоне 0..5") ;;
  assign (set_attr_sugar teaspoons).

Definition add_shot (count : Z) : M unit :=
  raise_if (count <? 0)
           (ValueError "Количество шотов не может быть отрицательным") ;;
  shots <- attr _shots ;;
  let new_total := shots + count in
  raise_if (MAX_SHOTS <? new_total) (ValueError "Превышен лимит шотов") ;;
  assign (set_attr_shots new_total).

Definition set_iced (iced : bool) : M unit :=
  assign (set_attr_iced iced).

(** The default arguments: [add_shot()] is [add_shot(1)] and [set_iced()]
    is [set_iced(True)]. *)
Definition add_shot_default : M unit := add_shot 1.
Definition set_iced_default : M unit := set_iced true.

Definition clear_extras : M unit :=
  assign (set_attr_milk DEFAULT_MILK) ;;
  assign (set_attr_syrups []) ;;
  assign (set_attr_sugar 0) ;;
  assign (set_attr_shots 0) ;;
  assign (set_attr_iced false).

(** [assert x is not None], giving the value. *)
Definition assert_not_none {A} (x : option A) : M A :=
  match x with
  | Some a => ret a
  | None => raise AssertionError
  end.

Definition _calc_price : M float :=
  b <- attr _base ;;
  b <- assert_not_none b ;;
  s <- attr _size ;;
  s <- assert_not_none s ;;
  base_price <- eval (dict_getitem BASE_PRICES b) ;;
  multiplier <- eval (dict_getitem SIZE_MULTIPLIERS s) ;;
  let base_cost := (base_price * multiplier)%float in
  m <- attr _milk ;;
  milk_cost <- eval (dict_getitem MILK_SURCHARGES m) ;;
  held <- attr _syrups ;;
  syrup_cost <- eval (int_mul_float (len held) SYRUP_PRICE) ;;
  shots <- attr _shots ;;
  shots_cost <- eval (int_mul_float shots SHOT_PRICE) ;;
  let subtotal := (base_cost + milk_cost + syrup_cost + shots_cost)%float in
  ic <- attr _iced ;;
  let subtotal := if ic then (subtotal + base_cost * ICED_RATE)%float else subtotal in
  ret (round2 subtotal).

Definition _build_description : M string :=
  b <- attr _base ;;
  b <- assert_not_none b ;;
  s <- attr _size ;;
  s <- assert_not_none s ;;
  let parts := [(s ++ " " ++ b)%string] in
  m <- attr _milk ;;
  let parts := if negb (String.eqb m DEFAULT_MILK)
               then parts ++ [("with " ++ m ++ " milk")%string] else parts in
  held <- attr _syrups ;;
  let parts := match held with
               | [] => parts
               | _ => parts ++ [("+" ++ join "," held ++ " syrup")%string]
               end in
  ic <- attr _iced ;;
  let parts := if ic then parts ++ ["(iced)"] else parts in
  sg <- attr _sugar ;;
  let parts := if negb (sg =? 0)
               then parts ++ [(str_of_int sg ++ " tsp sugar")%string] else parts in
  shots <- attr _shots ;;
  let parts := if negb (shots =? 0)
               then parts ++ [("+" ++ str_of_int shots ++ " extra shot(s)")%string] else parts in
  ret (join " " parts).

Definition build : M ref :=
  b <- attr _base ;;
  match b with
  | None => raise (ValueError "base обязателен")
  | Some b =>
      s <- attr _size ;;
      match s with
      | None => raise (ValueError "size обязателен")
      | Some s =>
          syrups_tuple <- attr _syrups ;;
          price <- _calc_price ;;
          description <- _build_description ;;
          m <- attr _milk ;;
          sg <- attr _sugar ;;
          ic <- attr _iced ;;
          shots <- attr _shots ;;
          new (mkCoffeeOrder b s m syrups_tuple sg ic price description shots)
      end
  end.

(** The self-check of [__main__], first chain. *)
Definition order_basic : M ref :=
  set_base "espresso" ;; set_size "medium" ;; set_milk "oat" ;;
  add_syrup "vanilla" ;; add_syrup "caramel" ;; set_sugar 2 ;;
  add_shot_default ;; set_iced true ;; build.

Definition fresh : world := mkWorld init [].

(** ** Calls, and the worlds a client can reach

    A client holds a builder and calls its public methods with arguments of
    the annotated types; a call that raises is caught and the client goes
    on, so the world after the call is kept either way. *)

Inductive call : Type :=
| SetBase (base : string)
| SetSize (size : string)
| SetMilk (milk : string)
| AddSyrup (name : string)
| SetSugar (teaspoons : Z)
| AddShot (count : Z)
| SetIced (iced : bool)
| ClearExtras
| Build.

Definition exec (c : call) : M unit :=
  match c with
  | SetBase b => set_base b
  | SetSize s => set_size s
  | SetMilk m => set_milk m
  | AddSyrup n => add_syrup n
  | SetSugar t => set_sugar t
  | AddShot k => add_shot k
  | SetIced i => set_iced i
  | ClearExtras => clear_extras
  | Build => build ;; ret tt
  end.

Definition step (w : world) (c : call) : world := snd (exec c w).

Definition run (cs : list call) (w : world) : world := fold_left step cs w.

(** ** The failure kinds of the design

    The source raises the one class [ValueError] for every failure of its
    own; the five kinds the design names are told apart by the message. *)

Inductive failure : Type :=
| InvalidChoice
| LimitExceeded
| OutOfRange
| InvalidArgument
| MissingField.

Definition failure_of (e : exn) : option failure :=
  match e with
  | ValueError msg =>
      if prefix "Недопустимая база: " msg
         || prefix "Недопустимый размер: " msg
         || prefix "Недопустимое молоко: " msg then Some InvalidChoice
      else if (msg =? "Превышен лимит сиропов")%string
              || (msg =? "Превышен лимит шотов")%string then Some LimitExceeded
      else if (msg =? "Сахар должен быть в диапазоне 0..5")%string then Some OutOfRange
      else if (msg =? "Количество шотов не может быть отрицательным")%string
           then Some InvalidArgument
      else if (msg =? "base обязателен")%string
              || (msg =? "size обязателен")%string then Some MissingField
      else None
  | _ => None
  end.

(** ** The class invariant *)

Definition known {V} (d : dict V) (o : option string) : bool :=
  match o with
  | Some k => dict_contains d k
  | None => true
  end.

Fixpoint distinct (l : list string) : bool :=
  match l with
  | [] => true
  | x :: l' => negb (list_contains l' x) && distinct l'
  end.

Definition valid (b : CoffeeOrderBuilder) : bool :=
  known BASE_PRICES (_base b) && known SIZE_MULTIPLIERS (_size b)
  && dict_contains MILK_SURCHARGES (_milk b)
  && distinct (_syrups b) && (len (_syrups b) <=? MAX_SYRUPS)
  && (0 <=? _sugar b) && (_sugar b <=? MAX_SUGAR)
  && (0 <=? _shots b) && (_shots b <=? MAX_SHOTS).

(** The bounds of the design on a builder and on a built order. *)
Definition builder_bounds (b : CoffeeOrderBuilder) : Prop :=
  NoDup (_syrups b) /\ 0 <= len (_syrups b) <= 4
  /\ 0 <= _sugar b <= 5 /\ 0 <= _shots b <= 3.

Definition order_bounds (o : CoffeeOrder) : Prop :=
  NoDup (syrups o) /\ 0 <= len (syrups o) <= 4
  /\ 0 <= sugar o <= 5 /\ 0 <= extra_shots o <= 3
  /\ (0 <=? price o)%float = true.

(** ** The algorithms in the words of the design *)

(** The price formula, in the float arithmetic of the code, rounded once. *)
Definition price_formula (basePrice sizeMultiplier milkSurcharge : float)
    (syrupCount shots : float) (iced : bool) : float :=
  round2 (basePrice * sizeMultiplier + milkSurcharge + 40.0 * syrupCount
          + 70.0 * shots
          + (if iced then 0.20 * (basePrice * sizeMultiplier) else 0))%float.

(** The float an int in range converts to (infinite beyond the range). *)
Definition to_float (n : Z) : float := SF2Prim (binary_normalize prec emax n 0 false).

Definition price_spec_at (bs sz ms : string) (n k : Z) (ic : bool) : option float :=
  match dict_find BASE_PRICES bs, dict_find SIZE_MULTIPLIERS sz,
        dict_find MILK_SURCHARGES ms with
  | Some bp, Some sm, Some mc =>
      Some (price_formula bp sm mc (to_float n) (to_float k) ic)
  | _, _, _ => None
  end.

Definition price_spec (b : CoffeeOrderBuilder) : option float :=
  match _base b, _size b with
  | Some bs, Some sz =>
      price_spec_at bs sz (_milk b) (len (_syrups b)) (_shots b) (_iced b)
  | _, _ => None
  end.

(** The catalogs as the decimal numbers they are written as. *)
Definition basePrice : dict Q :=
  [ ("espresso", 200); ("americano", 250); ("latte", 300); ("cappuccino", 320) ]%Q.
Definition sizeMultiplier : dict Q :=
  [ ("small", 1); ("medium", 12 # 10); ("large", 14 # 10) ]%Q.
Definition milkSurcharge : dict Q :=
  [ ("none", 0); ("whole", 30); ("skim", 30); ("oat", 60); ("soy", 50) ]%Q.

(** [basePrice[base] * sizeMultiplier[size]] in exact arithmetic. *)
Definition exact_base_cost_at (bs sz : string) : option Q :=
  match dict_find basePrice bs, dict_find sizeMultiplier sz with
  | Some bp, Some sm => Some (bp * sm)%Q
  | _, _ => None
  end.

Definition exact_base_cost (b : CoffeeOrderBuilder) : option Q :=
  match _base b, _size b with
  | Some bs, Some sz => exact_base_cost_at bs sz
  | _, _ => None
  end.

(** The subtotal of the price formula in exact arithmetic. *)
Definition exact_subtotal_at (bs sz ms : string) (n k : Z) (ic : bool) : option Q :=
  match exact_base_cost_at bs sz, dict_find milkSurcharge ms with
  | Some bc, Some mc =>
      Some (bc + mc + 40 * inject_Z n + 70 * inject_Z k
            + (if ic then (20 # 100) * bc else 0))%Q
  | _, _ => None
  end.

Definition exact_subtotal (b : CoffeeOrderBuilder) : option Q :=
  match _base b, _size b with
  | Some bs, Some sz =>
      exact_subtotal_at bs sz (_milk b) (len (_syrups b)) (_shots b) (_iced b)
  | _, _ => None
  end.

(** An exact amount rounded to hundredths (ties to even). *)
Definition round_hundredths (q : Q) : Z :=
  div_half_even (Qnum q * 100) (Zpos (Qden q)).

(** The exact value of a finite float. *)
Definition exact_value (x : float) : Q :=
  match Prim2SF x with
  | S754_finite s m e =>
      let v := if 0 <=? e then inject_Z (Zpos m * 2 ^ e)
               else Qmake (Zpos m) (Z.to_pos (2 ^ (- e))) in
      if s then Qopp v else v
  | _ => 0%Q
  end.

(** The description: the clauses that apply, in the fixed order, joined by
    single spaces. *)
Definition clause (cond : bool) (text : string) : list string :=
  if cond then [text] else [].

Definition description_spec (bs sz : string) (b : CoffeeOrderBuilder) : string :=
  join " "
    ([(sz ++ " " ++ bs)%string]
     ++ clause (negb (_milk b =? DEFAULT_MILK)%string) ("with " ++ _milk b ++ " milk")%string
     ++ clause (negb (len (_syrups b) =? 0)) ("+" ++ join "," (_syrups b) ++ " syrup")%string
     ++ clause (_iced b) "(iced)"
     ++ clause (0 <? _sugar b) (str_of_int (_sugar b) ++ " tsp sugar")%string
     ++ clause (0 <? _shots b) ("+" ++ str_of_int (_shots b) ++ " extra shot(s)")%string).

(** The fields of an order, and the ones a call can change in the next
    order built: the field it writes, and the derived ones that read it. *)
Inductive field : Type :=
| f_base | f_size | f_milk | f_syrups | f_sugar | f_iced
| f_price | f_description | f_extra_shots.

Inductive value : Type :=
| VStr (s : string)
| VTuple (l : list string)
| VInt (n : Z)
| VBool (b : bool)
| VFloat (x : float).

Definition getattr (o : CoffeeOrder) (f : field) : value :=
  match f with
  | f_base => VStr (base o)
  | f_size => VStr (size o)
  | f_milk => VStr (milk o)
  | f_syrups => VTuple (syrups o)
  | f_sugar => VInt (sugar o)
  | f_iced => VBool (iced o)
  | f_price => VFloat (price o)
  | f_description => VStr (description o)
  | f_extra_shots => VInt (extra_shots o)
  end.

Definition affected (c : call) : list field :=
  match c with
  | SetBase _ => [f_base; f_price; f_description]
  | SetSize _ => [f_size; f_price; f_description]
  | SetMilk _ => [f_milk; f_price; f_description]
  | AddSyrup _ => [f_syrups; f_price; f_description]
  | SetSugar _ => [f_sugar; f_description]
  | AddShot _ => [f_extra_shots; f_price; f_description]
  | SetIced _ => [f_iced; f_price; f_description]
  | ClearExtras =>
      [f_milk; f_syrups; f_sugar; f_extra_shots; f_iced; f_price; f_description]
  | Build => []
  end.

(** A call that raises leaves the world as it found it. *)
Definition aborts_cleanly {A} (m : M A) : Prop :=
  forall w e w', m w = (Raise e, w') -> w' = w.

(** ** Pure readings of the two build helpers, used by the proofs *)

Definition price_of (bs sz ms : string) (n k : Z) (ic : bool) : result float :=
  match dict_getitem BASE_PRICES bs with
  | Raise e => Raise e
  | Ok base_price =>
  match dict_getitem SIZE_MULTIPLIERS sz with
  | Raise e => Raise e
  | Ok multiplier =>
  match dict_getitem MILK_SURCHARGES ms with
  | Raise e => Raise e
  | Ok milk_cost =>
  match int_mul_float n SYRUP_PRICE with
  | Raise e => Raise e
  | Ok syrup_cost =>
  match int_mul_float k SHOT_PRICE with
  | Raise e => Raise e
  | Ok shots_cost =>
      let base_cost := (base_price * multiplier)%float in
      let subtotal := (base_cost + milk_cost + syrup_cost + shots_cost)%float in
      Ok (round2 (if ic then subtotal + base_cost * ICED_RATE else subtotal)%float)
  end end end end end.

Definition description_of (bs sz : string) (b : CoffeeOrderBuilder) : string :=
  let parts := [(sz ++ " " ++ bs)%string] in
  let parts := if negb (_milk b =? DEFAULT_MILK)%string
               then parts ++ [("with " ++ _milk b ++ " milk")%string] else parts in
  let parts := match _syrups b with
               | [] => parts
               | _ => parts ++ [("+" ++ join "," (_syrups b) ++ " syrup")%string]
               end in
  let parts := if _iced b then parts ++ ["(iced)"] else parts in
  let parts := if negb (_sugar b =? 0)
               then parts ++ [(str_of_int (_sugar b) ++ " tsp sugar")%string] else parts in
  let parts := if negb (_shots b =? 0)
               then parts ++ [("+" ++ str_of_int (_shots b) ++ " extra shot(s)")%string]
               else parts in
  join " " parts.

(** Every configuration of the price inputs a valid builder can hold. *)
Definition config : Type := (string * (string * (string * (Z * (Z * bool)))))%type.

Definition configs : list config :=
  list_prod (keys BASE_PRICES)
    (list_prod (keys SIZE_MULTIPLIERS)
       (list_prod (keys MILK_SURCHARGES)
          (list_prod [0; 1; 2; 3; 4] (list_prod [0; 1; 2; 3] [true; false])))).

Definition config_of (bs sz : string) (b : CoffeeOrderBuilder) : config :=
  (bs, (sz, (_milk b, (len (_syrups b), (_shots b, _iced b))))).

Definition at_config {A} (f : string -> string -> string -> Z -> Z -> bool -> A)
    (c : config) : A :=
  let '(bs, (sz, (ms, (n, (k, ic))))) := c in f bs sz ms n k ic.

(** The formula is defined wherever the code's lookups succeed. *)
Definition result_of_option {A} (o : option A) : result A :=
  match o with
  | Some a => Ok a
  | None => Raise AssertionError
  end.

(** The builder a call leaves behind, read off the method bodies: the
    attribute writes when every guard passes, nothing when one raises. *)
Definition next (c : call) (b : CoffeeOrderBuilder) : CoffeeOrderBuilder :=
  match c with
  | SetBase bs => if dict_contains BASE_PRICES bs then set_attr_base (Some bs) b else b
  | SetSize sz => if dict_contains SIZE_MULTIPLIERS sz then set_attr_size (Some sz) b else b
  | SetMilk ms => if dict_contains MILK_SURCHARGES ms then set_attr_milk ms b else b
  | AddSyrup name =>
      if list_contains (_syrups b) name then b
      else if MAX_SYRUPS <=? len (_syrups b) then b
      else set_attr_syrups (_syrups b ++ [name]) b
  | SetSugar t =>
      if (0 <=? t) && (t <=? MAX_SUGAR) then set_attr_sugar t b else b
  | AddShot k =>
      if k <? 0 then b
      else if MAX_SHOTS <? _shots b + k then b
      else set_attr_shots (_shots b + k) b
  | SetIced i => set_attr_iced i b
  | ClearExtras =>
      mkCoffeeOrderBuilder (_base b) (_size b) DEFAULT_MILK [] 0 false 0
  | Build => b
  end.

(** A cappuccino, medium, no milk, no syrup, no sugar, one extra shot:
    hot and iced. *)
Definition hot_cappuccino : world :=
  mkWorld (mkCoffeeOrderBuilder (Some "cappuccino") (Some "medium") "none" [] 0 false 1) [].
Definition iced_cappuccino : world :=
  mkWorld (mkCoffeeOrderBuilder (Some "cappuccino") (Some "medium") "none" [] 0 true 1) [].

(** The class invariant, clause by clause. *)
Record valid_facts (b : CoffeeOrderBuilder) : Prop := {
  vf_base : known BASE_PRICES (_base b) = true;
  vf_size : known SIZE_MULTIPLIERS (_size b) = true;
  vf_milk : dict_contains MILK_SURCHARGES (_milk b) = true;
  vf_distinct : distinct (_syrups b) = true;
  vf_len : len (_syrups b) <= 4;
  vf_sugar : 0 <= _sugar b <= 5;
  vf_shots : 0 <= _shots b <= 3
}.


(** The order [build] makes of a builder, given the price. *)
Definition order_of (bs sz : string) (b : CoffeeOrderBuilder) (p : float) : CoffeeOrder :=
  mkCoffeeOrder bs sz (_milk b) (_syrups b) (_sugar b) (_iced b) p
                (description_of bs sz b) (_shots b).


(** ** [CoffeeOrder.__str__] *)

(** Two decimal digits, with a leading zero. *)
Definition two_digits (n : Z) : string :=
  if n <? 10 then ("0" ++ str_of_int n)%string else str_of_int n.

(** [format(x, ".2f")], the [{self.price:.2f}] of the f-string: the exact
    value printed with two digits after the point, correctly rounded (ties
    to even), the sign kept also when the digits are all zero. *)
Definition format_2f (x : float) : string :=
  match Prim2SF x with
  | S754_nan => "nan"
  | S754_infinity s => if s then "-inf" else "inf"
  | S754_zero s => if s then "-0.00" else "0.00"
  | S754_finite s m e =>
      let n := hundredths m e in
      ((if s then "-" else "") ++ str_of_int (n / 100) ++ "." ++ two_digits (n mod 100))%string
  end.

Definition __str__ (o : CoffeeOrder) : string :=
  if negb (description o =? "")%string then description o
  else (size o ++ " " ++ base o ++ " (" ++ format_2f (price o) ++ ")")%string.

(** ** Vocabulary of the further properties *)

(** A setter that checks its argument against a catalog: the names of the
    catalog are written, every other string is refused with the message
    [msg] followed by the string, an InvalidChoice failure, and nothing is
    written. *)
Definition catalog_setter (set : string -> M unit) (names : list string)
    (msg : string)
    (write : string -> CoffeeOrderBuilder -> CoffeeOrderBuilder) : Prop :=
  forall (w : world) (v : string),
    (In v names -> set v w = (Ok tt, mkWorld (write v (self w)) (store w)))
    /\ (~ In v names ->
        set v w = (Raise (ValueError (msg ++ v)%string), w)
        /\ failure_of (ValueError (msg ++ v)%string) = Some InvalidChoice).

(** The number of [build] calls in a list of calls. *)
Definition is_build (c : call) : bool :=
  match c with
  | Build => true
  | _ => false
  end.

Definition builds (cs : list call) : nat := List.length (filter is_build cs).

(** The failure kinds a call can end in. *)
Definition failure_kinds (c : call) : list failure :=
  match c with
  | SetBase _ | SetSize _ | SetMilk _ => [InvalidChoice]
  | AddSyrup _ => [LimitExceeded]
  | SetSugar _ => [OutOfRange]
  | AddShot _ => [InvalidArgument; LimitExceeded]
  | SetIced _ | ClearExtras => []
  | Build => [MissingField]
  end.

(** The price of the order [build] returns after the calls [m]. *)
Definition price_after (m : M unit) (w : world) : option float :=
  match (m ;; build) w with
  | (Ok r, w') => option_map price (nth_error (store w') r)
  | (Raise _, _) => None
  end.

(** What [__str__] and the description of a built order look like. *)
Definition shows_description (o : CoffeeOrder) : Prop :=
  __str__ o = description o
  /\ prefix (size o ++ " " ++ base o)%string (description o) = true.

(** The price range of the menu. *)
Definition price_in_range (o : CoffeeOrder) : Prop :=
  (200.0 <=? price o)%float = true /\ (price o <=? 967.6)%float = true.

(** * Proofs *)

(** ** Catalog membership and the enumeration of configurations *)

Section Catalogs.
Context {V : Type}.

Lemma dict_contains_keys (d : dict V) (k : string) :
  dict_contains d k = true -> In k (keys d).
Proof.
  unfold dict_contains, keys.
  induction d as [|[k' v] d IH]; simpl; [discriminate|].
  destruct (String.eqb_spec k k') as [->|_]; auto.
Qed.

Lemma dict_contains_find (d : dict V) (k : string) :
  dict_contains d k = true -> exists v, dict_find d k = Some v.
Proof.
  unfold dict_contains. destruct (dict_find d k) as [v|]; [eauto|discriminate].
Qed.
End Catalogs.

Lemma in_range_4 (n : Z) : 0 <= n <= 4 -> In n [0; 1; 2; 3; 4].
Proof. intros H. simpl. lia. Qed.

Lemma in_range_3 (n : Z) : 0 <= n <= 3 -> In n [0; 1; 2; 3].
Proof. intros H. simpl. lia. Qed.

Lemma in_configs (bs sz ms : string) (n k : Z) (ic : bool) :
  dict_contains BASE_PRICES bs = true ->
  dict_contains SIZE_MULTIPLIERS sz = true ->
  dict_contains MILK_SURCHARGES ms = true ->
  0 <= n <= 4 -> 0 <= k <= 3 ->
  In (bs, (sz, (ms, (n, (k, ic))))) configs.
Proof.
  intros Hb Hs Hm Hn Hk. unfold configs.
  repeat apply in_prod; auto using dict_contains_keys, in_range_4, in_range_3.
  destruct ic; simpl; auto.
Qed.

(** Two functions that agree on the table of all configurations agree on
    each of them: one evaluation settles every valid builder. *)
Lemma configs_ext {A} (f g : config -> A) :
  map f configs = map g configs -> forall c, In c configs -> f c = g c.
Proof. intros H. apply map_ext_in_iff. assumption. Qed.

Lemma configs_all (P : config -> bool) :
  forallb P configs = true -> forall c, In c configs -> P c = true.
Proof. intros H. apply forallb_forall. assumption. Qed.

(** ** What the class invariant says *)

Lemma distinct_NoDup (l : list string) : distinct l = true -> NoDup l.
Proof.
  induction l as [|x l IH]; simpl; intros H; [constructor|].
  apply andb_prop in H. destruct H as [Hx Hl].
  constructor; [|auto].
  intros Hin. apply negb_true_iff in Hx.
  unfold list_contains in Hx.
  assert (existsb (String.eqb x) l = true) as E.
  { apply existsb_exists. exists x. split; [assumption|apply String.eqb_refl]. }
  congruence.
Qed.

Lemma list_contains_In (l : list string) (x : string) :
  list_contains l x = true <-> In x l.
Proof.
  unfold list_contains. rewrite existsb_exists. split.
  - intros [y [Hy E]]. apply String.eqb_eq in E. subst. assumption.
  - intros H. exists x. split; [assumption|apply String.eqb_refl].
Qed.

Lemma distinct_app (l : list string) (x : string) :
  distinct l = true -> list_contains l x = false -> distinct (l ++ [x]) = true.
Proof.
  induction l as [|y l IH]; simpl; intros Hd Hx; [reflexivity|].
  apply andb_prop in Hd. destruct Hd as [Hy Hl].
  apply orb_false_elim in Hx. destruct Hx as [Hxy Hxl].
  rewrite IH by assumption. rewrite andb_true_r.
  apply negb_true_iff. apply negb_true_iff in Hy.
  unfold list_contains in *. rewrite existsb_app. rewrite Hy. simpl.
  rewrite String.eqb_sym. rewrite Hxy. reflexivity.
Qed.

Lemma len_app {A} (l : list A) (x : A) : len (l ++ [x]) = len l + 1.
Proof. unfold len. rewrite length_app. simpl. lia. Qed.

Lemma len_nonneg {A} (l : list A) : 0 <= len l.
Proof. unfold len. lia. Qed.

Lemma valid_iff (b : CoffeeOrderBuilder) : valid b = true <-> valid_facts b.
Proof.
  unfold valid, MAX_SYRUPS, MAX_SUGAR, MAX_SHOTS. split.
  - intros H. repeat (apply andb_prop in H; destruct H as [H ?]).
    constructor; try assumption; lia.
  - intros [? ? ? ? ? ? ?].
    repeat (apply andb_true_intro; split); try assumption; lia.
Qed.

Lemma valid_bounds (b : CoffeeOrderBuilder) : valid b = true -> builder_bounds b.
Proof.
  intros H. apply valid_iff in H. destruct H.
  unfold builder_bounds. pose proof (len_nonneg (_syrups b)).
  repeat split; try lia. apply distinct_NoDup. assumption.
Qed.

(** ** The build helpers read the builder and leave the world alone *)

Lemma calc_price_eq (w : world) (bs sz : string) :
  _base (self w) = Some bs -> _size (self w) = Some sz ->
  _calc_price w =
    (price_of bs sz (_milk (self w)) (len (_syrups (self w)))
              (_shots (self w)) (_iced (self w)), w).
Proof.
  intros Hb Hs. unfold _calc_price, bind, attr, assert_not_none, eval, ret.
  rewrite Hb, Hs. unfold price_of.
  destruct (dict_getitem BASE_PRICES bs); [|reflexivity].
  destruct (dict_getitem SIZE_MULTIPLIERS sz); [|reflexivity].
  destruct (dict_getitem MILK_SURCHARGES _); [|reflexivity].
  destruct (int_mul_float (len _) SYRUP_PRICE); [|reflexivity].
  destruct (int_mul_float _ SHOT_PRICE); reflexivity.
Qed.

Lemma build_description_eq (w : world) (bs sz : string) :
  _base (self w) = Some bs -> _size (self w) = Some sz ->
  _build_description w = (Ok (description_of bs sz (self w)), w).
Proof.
  intros Hb Hs. unfold _build_description, bind, attr, assert_not_none, ret.
  rewrite Hb, Hs. reflexivity.
Qed.

Lemma build_eq (w : world) (bs sz : string) :
  _base (self w) = Some bs -> _size (self w) = Some sz ->
  build w =
    match price_of bs sz (_milk (self w)) (len (_syrups (self w)))
                   (_shots (self w)) (_iced (self w)) with
    | Ok p => (Ok (List.length (store w)),
               mkWorld (self w) (store w ++ [order_of bs sz (self w) p]))
    | Raise e => (Raise e, w)
    end.
Proof.
  intros Hb Hs. unfold build.
  unfold bind at 1. unfold attr at 1. rewrite Hb.
  unfold bind at 1. unfold attr at 1. rewrite Hs.
  unfold bind at 1. unfold attr at 1.
  unfold bind at 1. rewrite (calc_price_eq w bs sz Hb Hs).
  destruct (price_of _ _ _ _ _ _) as [p|e]; [|reflexivity].
  unfold bind at 1. rewrite (build_description_eq w bs sz Hb Hs).
  reflexivity.
Qed.

Lemma valid_config (b : CoffeeOrderBuilder) (bs sz : string) :
  valid b = true -> _base b = Some bs -> _size b = Some sz ->
  In (config_of bs sz b) configs.
Proof.
  intros Hv Hb Hs. apply valid_iff in Hv. destruct Hv as [Kb Ks Km _ Hl _ Hk].
  rewrite Hb in Kb. rewrite Hs in Ks. simpl in Kb, Ks.
  pose proof (len_nonneg (_syrups b)).
  apply in_configs; auto; lia.
Qed.

(** ** The price on every configuration *)

Ltac by_table :=
  intros c Hc; revert c Hc;
  match goal with
  | |- forall c, In c configs -> @?L c = @?R c =>
      apply (configs_ext L R); vm_compute; reflexivity
  end.

Lemma price_of_formula (c : config) :
  In c configs ->
  at_config price_of c = result_of_option (at_config price_spec_at c).
Proof. revert c. by_table. Qed.

Lemma price_spec_exact (c : config) :
  In c configs ->
  option_map cents (at_config price_spec_at c)
  = option_map round_hundredths (at_config exact_subtotal_at c).
Proof. revert c. by_table. Qed.

Lemma price_spec_nearest (c : config) :
  In c configs ->
  at_config price_spec_at c
  = option_map (fun q => (to_float (round_hundredths q) / 100)%float)
               (at_config exact_subtotal_at c).
Proof. revert c. by_table. Qed.

Lemma price_spec_defined (c : config) :
  In c configs ->
  match at_config price_spec_at c with
  | Some p => (0 <=? p)%float
  | None => false
  end = true.
Proof. revert c. by_table. Qed.

(** ** [build] on a valid builder with base and size set *)

Lemma price_spec_config (b : CoffeeOrderBuilder) (bs sz : string) :
  _base b = Some bs -> _size b = Some sz ->
  price_spec b = at_config price_spec_at (config_of bs sz b).
Proof. intros Hb Hs. unfold price_spec. rewrite Hb, Hs. reflexivity. Qed.

Lemma exact_subtotal_config (b : CoffeeOrderBuilder) (bs sz : string) :
  _base b = Some bs -> _size b = Some sz ->
  exact_subtotal b = at_config exact_subtotal_at (config_of bs sz b).
Proof. intros Hb Hs. unfold exact_subtotal. rewrite Hb, Hs. reflexivity. Qed.

Lemma build_valid (w : world) (bs sz : string) :
  valid (self w) = true ->
  _base (self w) = Some bs -> _size (self w) = Some sz ->
  exists p,
    price_spec (self w) = Some p /\ (0 <=? p)%float = true /\
    build w = (Ok (List.length (store w)),
               mkWorld (self w) (store w ++ [order_of bs sz (self w) p])).
Proof.
  intros Hv Hb Hs.
  pose proof (valid_config _ _ _ Hv Hb Hs) as Hc.
  pose proof (price_of_formula _ Hc) as Hp.
  pose proof (price_spec_defined _ Hc) as Hd.
  rewrite <- (price_spec_config _ _ _ Hb Hs) in Hp, Hd.
  destruct (price_spec (self w)) as [p|]; [|discriminate].
  exists p. repeat split; [assumption|].
  rewrite (build_eq w bs sz Hb Hs).
  change (at_config price_of (config_of bs sz (self w)))
    with (price_of bs sz (_milk (self w)) (len (_syrups (self w)))
                   (_shots (self w)) (_iced (self w))) in Hp.
  rewrite Hp. reflexivity.
Qed.

(** C1. For a valid builder with base and size set, [build] returns a new
    order whose price is the formula of the design evaluated in the code's
    float arithmetic and rounded once at the end
    ([round(basePrice[base] * sizeMultiplier[size] + milkSurcharge[milk]
    + 40.0 * |syrups| + 70.0 * shots + (0.20 * baseCost if iced else 0), 2)]);
    that float is the one nearest to the exact decimal subtotal rounded to
    hundredths, so no rounding error of the intermediate float operations
    reaches the price.  The end-to-end chain (espresso, medium, oat,
    vanilla and caramel, sugar 2, one shot, iced) is priced 498.0. *)
Theorem C1_price_formula :
  (forall (w : world) (bs sz : string),
      valid (self w) = true ->
      _base (self w) = Some bs -> _size (self w) = Some sz ->
      exists o,
        build w = (Ok (List.length (store w)), mkWorld (self w) (store w ++ [o]))
        /\ price_spec (self w) = Some (price o)
        /\ option_map round_hundredths (exact_subtotal (self w))
           = Some (cents (price o))
        /\ option_map (fun q => (to_float (round_hundredths q) / 100)%float)
                      (exact_subtotal (self w))
           = Some (price o))
  /\ (exists o w',
         order_basic fresh = (Ok 0%nat, w')
         /\ nth_error (store w') 0 = Some o
         /\ price o = 498.0%float
         /\ option_map round_hundredths (exact_subtotal (self w')) = Some 49800).
Proof.
  split.
  - intros w bs sz Hv Hb Hs.
    destruct (build_valid w bs sz Hv Hb Hs) as [p [Hp [_ Hbuild]]].
    exists (order_of bs sz (self w) p). simpl price.
    pose proof (valid_config _ _ _ Hv Hb Hs) as Hc.
    pose proof (price_spec_exact _ Hc) as He.
    pose proof (price_spec_nearest _ Hc) as Hn.
    rewrite <- (price_spec_config _ _ _ Hb Hs) in He, Hn.
    rewrite <- (exact_subtotal_config _ _ _ Hb Hs) in He, Hn.
    rewrite Hp in He, Hn. simpl in He.
    repeat split; auto.
  - eexists. eexists. vm_compute. repeat split.
Qed.

Lemma C1_price_formula_witness :
  exists o,
    build (mkWorld (mkCoffeeOrderBuilder (Some "latte") (Some "large") "soy"
                      ["mint"] 1 true 2) [])
    = (Ok 0%nat,
       mkWorld (mkCoffeeOrderBuilder (Some "latte") (Some "large") "soy"
                  ["mint"] 1 true 2) [o])
    /\ price o = 734.0%float.
Proof.
  destruct (proj1 C1_price_formula
              (mkWorld (mkCoffeeOrderBuilder (Some "latte") (Some "large") "soy"
                          ["mint"] 1 true 2) [])
              "latte" "large" eq_refl eq_refl eq_refl)
    as [o [Hb [Hp _]]].
  exists o. split; [exact Hb|].
  vm_compute in Hp. injection Hp as Hp. symmetry. exact Hp.
Defined.

(** ** The description *)

Lemma sign_test (n : Z) : 0 <= n -> negb (n =? 0) = (0 <? n).
Proof.
  intros H. destruct (Z.eqb_spec n 0), (Z.ltb_spec 0 n); simpl; auto; lia.
Qed.

Lemma description_of_spec (bs sz : string) (b : CoffeeOrderBuilder) :
  0 <= _sugar b -> 0 <= _shots b ->
  description_of bs sz b = description_spec bs sz b.
Proof.
  intros Hsugar Hshots. unfold description_of, description_spec, clause.
  rewrite <- (sign_test _ Hsugar), <- (sign_test _ Hshots).
  f_equal.
  assert (negb (len (_syrups b) =? 0)
          = match _syrups b with [] => false | _ => true end) as ->.
  { destruct (_syrups b); [reflexivity|].
    unfold len. simpl List.length. destruct (Z.eqb_spec (Z.of_nat (S (List.length l))) 0); [lia|reflexivity]. }
  destruct (negb (_milk b =? DEFAULT_MILK)%string), (_syrups b) as [|x l],
    (_iced b), (negb (_sugar b =? 0)), (negb (_shots b =? 0));
    cbn [app]; rewrite <- ?app_assoc; reflexivity.
Qed.

(** C2. For a valid builder with base and size set, the description of the
    order [build] returns is the space-joined list of the clauses that
    apply, in the fixed order: size and base, the milk when it is not the
    default, the comma-joined syrups when there are any, "(iced)", the
    sugar when positive, the extra shots when positive.  The end-to-end
    chain gives the sentence of the design. *)
Theorem C2_description_clauses :
  (forall (w : world) (bs sz : string),
      valid (self w) = true ->
      _base (self w) = Some bs -> _size (self w) = Some sz ->
      exists o,
        build w = (Ok (List.length (store w)), mkWorld (self w) (store w ++ [o]))
        /\ description o = description_spec bs sz (self w))
  /\ (exists o w',
         order_basic fresh = (Ok 0%nat, w')
         /\ nth_error (store w') 0 = Some o
         /\ description o
            = "medium espresso with oat milk +vanilla,caramel syrup (iced) 2 tsp sugar +1 extra shot(s)").
Proof.
  split.
  - intros w bs sz Hv Hb Hs.
    destruct (build_valid w bs sz Hv Hb Hs) as [p [_ [_ Hbuild]]].
    exists (order_of bs sz (self w) p). split; [exact Hbuild|].
    apply valid_iff in Hv. destruct Hv as [_ _ _ _ _ Hsugar Hshots].
    simpl description. apply description_of_spec; lia.
  - eexists. eexists. vm_compute. repeat split.
Qed.

Lemma C2_description_clauses_witness :
  exists o,
    build (mkWorld (mkCoffeeOrderBuilder (Some "latte") (Some "large") "none"
                      ["mint"] 0 false 2) [])
    = (Ok 0%nat,
       mkWorld (mkCoffeeOrderBuilder (Some "latte") (Some "large") "none"
                  ["mint"] 0 false 2) [o])
    /\ description o = "large latte +mint syrup +2 extra shot(s)".
Proof.
  destruct (proj1 C2_description_clauses
              (mkWorld (mkCoffeeOrderBuilder (Some "latte") (Some "large") "none"
                          ["mint"] 0 false 2) [])
              "latte" "large" eq_refl eq_refl eq_refl)
    as [o [Hb Hd]].
  exists o. split; [exact Hb|]. rewrite Hd. vm_compute. reflexivity.
Defined.

(** ** Missing fields *)

Lemma build_no_base (w : world) :
  _base (self w) = None -> build w = (Raise (ValueError "base обязателен"), w).
Proof. intros Hb. unfold build, bind, attr. rewrite Hb. reflexivity. Qed.

Lemma build_no_size (w : world) (bs : string) :
  _base (self w) = Some bs -> _size (self w) = None ->
  build w = (Raise (ValueError "size обязателен"), w).
Proof. intros Hb Hs. unfold build, bind, attr. rewrite Hb, Hs. reflexivity. Qed.

(** C3. [build] raises when base is unset and raises when size is unset;
    the two checks are separate statements with their own messages, both of
    the kind MissingField and different from each other, and a builder with
    base set and size unset gets the size message; with both set (on a
    valid builder) [build] returns an order. *)
Theorem C3_missing_field :
  (forall w, _base (self w) = None ->
             build w = (Raise (ValueError "base обязателен"), w))
  /\ (forall w bs, _base (self w) = Some bs -> _size (self w) = None ->
                   build w = (Raise (ValueError "size обязателен"), w))
  /\ (forall w, _size (self w) = None ->
                exists e, build w = (Raise e, w) /\ failure_of e = Some MissingField)
  /\ failure_of (ValueError "base обязателен") = Some MissingField
  /\ failure_of (ValueError "size обязателен") = Some MissingField
  /\ ValueError "base обязателен" <> ValueError "size обязателен"
  /\ (forall w bs sz,
         valid (self w) = true ->
         _base (self w) = Some bs -> _size (self w) = Some sz ->
         exists r w', build w = (Ok r, w')).
Proof.
  split; [exact build_no_base|].
  split; [exact build_no_size|].
  split.
  { intros w Hs. destruct (_base (self w)) as [bs|] eqn:Hb.
    - eexists. split; [apply (build_no_size w bs Hb Hs)|reflexivity].
    - eexists. split; [apply (build_no_base w Hb)|reflexivity]. }
  split; [reflexivity|]. split; [reflexivity|]. split; [discriminate|].
  intros w bs sz Hv Hb Hs.
  destruct (build_valid w bs sz Hv Hb Hs) as [p [_ [_ Hbuild]]].
  eauto.
Qed.

Lemma C3_missing_field_witness :
  build (mkWorld (set_attr_size (Some "small") init) [])
  = (Raise (ValueError "base обязателен"), mkWorld (set_attr_size (Some "small") init) [])
  /\ build (mkWorld (set_attr_base (Some "latte") init) [])
     = (Raise (ValueError "size обязателен"), mkWorld (set_attr_base (Some "latte") init) []).
Proof.
  split.
  - apply (proj1 C3_missing_field). reflexivity.
  - apply (proj1 (proj2 C3_missing_field) _ "latte"); reflexivity.
Defined.

(** ** A call that raises has written nothing *)

Lemma raise_if_cases (c : bool) (e : exn) (w : world) :
  (c = true /\ raise_if c e w = (Raise e, w))
  \/ (c = false /\ raise_if c e w = (Ok tt, w)).
Proof. destruct c; [left|right]; split; reflexivity. Qed.

Lemma guarded_assign_aborts (c : bool) (e : exn)
    (f : CoffeeOrderBuilder -> CoffeeOrderBuilder) :
  aborts_cleanly (raise_if c e ;; assign f).
Proof.
  intros w e' w' H. unfold bind in H.
  destruct (raise_if_cases c e w) as [[_ E]|[_ E]]; rewrite E in H.
  - congruence.
  - unfold assign in H. discriminate.
Qed.

Lemma add_syrup_aborts (name : string) : aborts_cleanly (add_syrup name).
Proof.
  intros w e w' H. unfold add_syrup, bind, attr in H.
  destruct (negb (list_contains (_syrups (self w)) name)).
  - apply (guarded_assign_aborts _ _ _ w e w' H).
  - unfold ret in H. discriminate.
Qed.

Lemma add_shot_aborts (count : Z) : aborts_cleanly (add_shot count).
Proof.
  intros w e w' H. unfold add_shot in H. unfold bind at 1 in H.
  destruct (raise_if_cases (count <? 0)
              (ValueError "Количество шотов не может быть отрицательным") w)
    as [[_ E]|[_ E]]; rewrite E in H; [congruence|].
  unfold bind at 1 in H. unfold attr at 1 in H.
  apply (guarded_assign_aborts _ _ _ w e w' H).
Qed.

Lemma build_aborts : aborts_cleanly build.
Proof.
  intros w e w' H.
  destruct (_base (self w)) as [bs|] eqn:Hb.
  - destruct (_size (self w)) as [sz|] eqn:Hs.
    + rewrite (build_eq w bs sz Hb Hs) in H.
      destruct (price_of _ _ _ _ _ _); congruence.
    + rewrite (build_no_size w bs Hb Hs) in H. congruence.
  - rewrite (build_no_base w Hb) in H. congruence.
Qed.

(** C4. Whenever a call of [set_base], [set_size], [set_milk], [add_syrup],
    [set_sugar], [add_shot], [set_iced] or [build] raises, the world after
    the call (the builder's attributes and the store of orders) is the
    world before it. *)
Theorem C4_failure_no_mutation :
  (forall base, aborts_cleanly (set_base base))
  /\ (forall size, aborts_cleanly (set_size size))
  /\ (forall milk, aborts_cleanly (set_milk milk))
  /\ (forall name, aborts_cleanly (add_syrup name))
  /\ (forall teaspoons, aborts_cleanly (set_sugar teaspoons))
  /\ (forall count, aborts_cleanly (add_shot count))
  /\ (forall iced, aborts_cleanly (set_iced iced))
  /\ aborts_cleanly build.
Proof.
  repeat split.
  - intros base. apply guarded_assign_aborts.
  - intros size. apply guarded_assign_aborts.
  - intros milk. apply guarded_assign_aborts.
  - exact add_syrup_aborts.
  - intros teaspoons. apply guarded_assign_aborts.
  - exact add_shot_aborts.
  - intros iced w e w' H. unfold set_iced, assign in H. discriminate.
  - exact build_aborts.
Qed.

Lemma C4_failure_no_mutation_witness :
  snd (add_shot 2 (mkWorld (set_attr_shots 2 init) []))
  = mkWorld (set_attr_shots 2 init) [].
Proof.
  apply (proj1 (proj2 (proj2 (proj2 (proj2 (proj2 C4_failure_no_mutation))))) 2
           (mkWorld (set_attr_shots 2 init) [])
           (ValueError "Превышен лимит шотов")).
  reflexivity.
Defined.

(** ** Calls, one at a time *)

Lemma build_cases (w : world) :
  (exists e, build w = (Raise e, w))
  \/ (exists bs sz p,
         _base (self w) = Some bs /\ _size (self w) = Some sz
         /\ build w = (Ok (List.length (store w)),
                       mkWorld (self w) (store w ++ [order_of bs sz (self w) p]))
         /\ price_of bs sz (_milk (self w)) (len (_syrups (self w)))
                      (_shots (self w)) (_iced (self w)) = Ok p).
Proof.
  destruct (_base (self w)) as [bs|] eqn:Hb.
  - destruct (_size (self w)) as [sz|] eqn:Hs.
    + pose proof (build_eq w bs sz Hb Hs) as H.
      destruct (price_of _ _ _ _ _ _) as [p|e] eqn:Hp.
      * right. exists bs, sz, p. auto.
      * left. eauto.
    + left. eexists. apply (build_no_size w bs Hb Hs).
  - left. eexists. apply (build_no_base w Hb).
Qed.

Lemma build_self (w : world) : self (snd (build w)) = self w.
Proof.
  destruct (build_cases w) as [[e H]|[bs [sz [p [_ [_ [H _]]]]]]];
    rewrite H; reflexivity.
Qed.

Lemma step_self (w : world) (c : call) : self (step w c) = next c (self w).
Proof.
  unfold step. destruct c as [bs'|sz'|ms'|name|teaspoons|count|i| |]; simpl exec; unfold next.
  - unfold set_base, bind, raise_if.
    destruct (dict_contains BASE_PRICES bs'); reflexivity.
  - unfold set_size, bind, raise_if.
    destruct (dict_contains SIZE_MULTIPLIERS sz'); reflexivity.
  - unfold set_milk, bind, raise_if.
    destruct (dict_contains MILK_SURCHARGES ms'); reflexivity.
  - unfold add_syrup, bind, attr, raise_if.
    destruct (list_contains (_syrups (self w)) name); [reflexivity|].
    simpl negb. cbv iota.
    destruct (MAX_SYRUPS <=? len (_syrups (self w))); reflexivity.
  - unfold set_sugar, bind, raise_if.
    destruct ((0 <=? teaspoons) && (teaspoons <=? MAX_SUGAR)); reflexivity.
  - unfold add_shot, bind, attr, raise_if.
    destruct (count <? 0); [reflexivity|]. simpl.
    destruct (MAX_SHOTS <? _shots (self w) + count); reflexivity.
  - reflexivity.
  - reflexivity.
  - unfold bind. pose proof (build_self w) as H.
    destruct (build w) as [[r|e] w']; exact H.
Qed.

Lemma step_store (w : world) (c : call) :
  exists l, store (step w c) = store w ++ l.
Proof.
  assert (forall m : M unit, store (snd (m w)) = store w ->
                             exists l, store (snd (m w)) = store w ++ l) as same.
  { intros m H. exists []. rewrite app_nil_r. exact H. }
  destruct c as [bs'|sz'|ms'|name|teaspoons|count|i| |]; unfold step; simpl exec;
    [apply same .. | ].
  - unfold set_base, bind, raise_if.
    destruct (negb (dict_contains BASE_PRICES bs')); reflexivity.
  - unfold set_size, bind, raise_if.
    destruct (negb (dict_contains SIZE_MULTIPLIERS sz')); reflexivity.
  - unfold set_milk, bind, raise_if.
    destruct (negb (dict_contains MILK_SURCHARGES ms')); reflexivity.
  - unfold add_syrup, bind, attr, raise_if.
    destruct (negb (list_contains (_syrups (self w)) name)); [|reflexivity].
    destruct (MAX_SYRUPS <=? len (_syrups (self w))); reflexivity.
  - unfold set_sugar, bind, raise_if.
    destruct (negb ((0 <=? teaspoons) && (teaspoons <=? MAX_SUGAR))); reflexivity.
  - unfold add_shot, bind, attr, raise_if.
    destruct (count <? 0); [reflexivity|]. simpl.
    destruct (MAX_SHOTS <? _shots (self w) + count); reflexivity.
  - reflexivity.
  - reflexivity.
  - unfold bind.
    destruct (build_cases w) as [[e H]|[bs [sz [p [_ [_ [H _]]]]]]]; rewrite H.
    + exists []. rewrite app_nil_r. reflexivity.
    + eexists. reflexivity.
Qed.

Lemma next_valid (c : call) (b : CoffeeOrderBuilder) :
  valid b = true -> valid (next c b) = true.
Proof.
  intros Hv. apply valid_iff in Hv. destruct Hv as [Kb Ks Km Kd Kl Ksu Ksh].
  destruct c as [bs'|sz'|ms'|name|teaspoons|count|i| |]; unfold next.
  - destruct (dict_contains BASE_PRICES bs') eqn:E;
      apply valid_iff; constructor; simpl; auto.
  - destruct (dict_contains SIZE_MULTIPLIERS sz') eqn:E;
      apply valid_iff; constructor; simpl; auto.
  - destruct (dict_contains MILK_SURCHARGES ms') eqn:E;
      apply valid_iff; constructor; simpl; auto.
  - destruct (list_contains (_syrups b) name) eqn:E;
      [apply valid_iff; constructor; auto|].
    unfold MAX_SYRUPS. destruct (Z.leb_spec 4 (len (_syrups b)));
      apply valid_iff; constructor; simpl; auto.
    + apply distinct_app; assumption.
    + rewrite len_app. lia.
  - unfold MAX_SUGAR.
    destruct (Z.leb_spec 0 teaspoons), (Z.leb_spec teaspoons 5);
      apply valid_iff; constructor; simpl; auto; lia.
  - unfold MAX_SHOTS.
    destruct (Z.ltb_spec count 0), (Z.ltb_spec 3 (_shots b + count));
      apply valid_iff; constructor; simpl; auto; lia.
  - apply valid_iff; constructor; simpl; auto.
  - apply valid_iff; constructor; simpl; auto; unfold len; simpl; lia.
  - apply valid_iff; constructor; auto.
Qed.

Lemma next_base (c : call) (b : CoffeeOrderBuilder) (bs : string) :
  _base b = Some bs -> exists bs', _base (next c b) = Some bs'.
Proof.
  intros H. destruct c; unfold next;
    repeat match goal with |- context [if ?g then _ else _] => destruct g end;
    simpl; eauto.
Qed.

Lemma next_size (c : call) (b : CoffeeOrderBuilder) (sz : string) :
  _size b = Some sz -> exists sz', _size (next c b) = Some sz'.
Proof.
  intros H. destruct c; unfold next;
    repeat match goal with |- context [if ?g then _ else _] => destruct g end;
    simpl; eauto.
Qed.

(** ** Orders built before and after a call *)

Lemma next_frame (c : call) (b : CoffeeOrderBuilder)
    (bs sz bs' sz' : string) (p p' : float) (f : field) :
  _base b = Some bs -> _size b = Some sz ->
  _base (next c b) = Some bs' -> _size (next c b) = Some sz' ->
  price_spec b = Some p -> price_spec (next c b) = Some p' ->
  ~ In f (affected c) ->
  getattr (order_of bs' sz' (next c b) p') f = getattr (order_of bs sz b p) f.
Proof.
  intros Hb Hs Hb' Hs' Hp Hp' Hf.
  destruct c; destruct f; simpl affected in Hf;
    try (exfalso; apply Hf; simpl; tauto);
    unfold next in *;
    repeat match goal with
           | H : context [if ?g then _ else _] |- _ => destruct g
           end;
    unfold price_spec in *; simpl in *; congruence.
Qed.

Lemma nth_error_last {A} (l : list A) (x : A) :
  nth_error (l ++ [x]) (List.length l) = Some x.
Proof.
  rewrite nth_error_app2 by lia. rewrite Nat.sub_diag. reflexivity.
Qed.

Lemma nth_error_keep {A} (l l' : list A) (n : nat) (x : A) :
  nth_error l n = Some x -> nth_error (l ++ l') n = Some x.
Proof.
  intros H. rewrite nth_error_app1; [assumption|].
  apply nth_error_Some. congruence.
Qed.

(** C5. [build] leaves the builder's attributes as they were, whether it
    returns or raises.  On a valid builder with base and size set, two
    builds in a row return two different references whose orders are
    equal field by field.  With any one call in between (it may go through
    or raise), the first order still reads as it did, the second is a
    different object, and the two agree on every field outside the ones the
    call can affect. *)
Theorem C5_build_leaves_builder :
  (forall w, self (snd (build w)) = self w)
  /\ (forall w bs sz,
         valid (self w) = true ->
         _base (self w) = Some bs -> _size (self w) = Some sz ->
         exists r1 w1 r2 w2 o,
           build w = (Ok r1, w1) /\ build w1 = (Ok r2, w2)
           /\ self w2 = self w /\ r1 <> r2
           /\ nth_error (store w2) r1 = Some o
           /\ nth_error (store w2) r2 = Some o)
  /\ (forall w bs sz c,
         valid (self w) = true ->
         _base (self w) = Some bs -> _size (self w) = Some sz ->
         exists r1 w1 o1 r2 w2 o2,
           build w = (Ok r1, w1) /\ nth_error (store w1) r1 = Some o1
           /\ build (step w1 c) = (Ok r2, w2) /\ r1 <> r2
           /\ nth_error (store w2) r1 = Some o1
           /\ nth_error (store w2) r2 = Some o2
           /\ forall f, ~ In f (affected c) -> getattr o2 f = getattr o1 f).
Proof.
  split; [exact build_self|]. split.
  - intros w bs sz Hv Hb Hs.
    destruct (build_valid w bs sz Hv Hb Hs) as [p [Hp [_ H1]]].
    set (o := order_of bs sz (self w) p) in *.
    set (w1 := mkWorld (self w) (store w ++ [o])) in *.
    destruct (build_valid w1 bs sz Hv Hb Hs) as [p' [Hp' [_ H2]]].
    simpl self in Hp', H2. simpl store in H2.
    assert (p' = p) as -> by congruence. fold o in H2.
    exists (List.length (store w)), w1, (List.length (store w ++ [o])),
      (mkWorld (self w) ((store w ++ [o]) ++ [o])), o.
    repeat split; try assumption.
    + rewrite length_app. simpl. lia.
    + simpl store. apply nth_error_keep. apply nth_error_last.
    + simpl store. apply nth_error_last.
  - intros w bs sz c Hv Hb Hs.
    destruct (build_valid w bs sz Hv Hb Hs) as [p [Hp [_ H1]]].
    set (o1 := order_of bs sz (self w) p) in *.
    set (w1 := mkWorld (self w) (store w ++ [o1])) in *.
    pose proof (step_self w1 c) as Hself. simpl self in Hself.
    destruct (step_store w1 c) as [l Hstore]. simpl store in Hstore.
    destruct (next_base c _ _ Hb) as [bs' Hb'].
    destruct (next_size c _ _ Hs) as [sz' Hs'].
    pose proof (next_valid c _ Hv) as Hv'.
    rewrite <- Hself in Hb', Hs', Hv'.
    destruct (build_valid (step w1 c) bs' sz' Hv' Hb' Hs') as [p' [Hp' [_ H2]]].
    exists (List.length (store w)), w1, o1,
      (List.length (store (step w1 c))),
      (mkWorld (self (step w1 c))
               (store (step w1 c) ++ [order_of bs' sz' (self (step w1 c)) p'])),
      (order_of bs' sz' (self (step w1 c)) p').
    repeat split; try assumption.
    + simpl store. apply nth_error_last.
    + rewrite Hstore. rewrite !length_app. simpl. lia.
    + simpl store. rewrite Hstore. rewrite <- app_assoc.
      apply nth_error_keep. apply nth_error_last.
    + simpl store. apply nth_error_last.
    + intros f Hf. rewrite Hself in *.
      apply next_frame; assumption.
Qed.

Lemma C5_build_leaves_builder_witness :
  exists r1 w1 o1 r2 w2 o2,
    build (mkWorld (mkCoffeeOrderBuilder (Some "espresso") (Some "medium") "oat"
                      ["vanilla"; "caramel"] 2 true 1) [])
    = (Ok r1, w1)
    /\ nth_error (store w1) r1 = Some o1
    /\ build (step w1 (SetMilk "soy")) = (Ok r2, w2)
    /\ r1 <> r2
    /\ nth_error (store w2) r1 = Some o1
    /\ nth_error (store w2) r2 = Some o2
    /\ syrups o2 = syrups o1 /\ extra_shots o2 = extra_shots o1.
Proof.
  destruct (proj2 (proj2 C5_build_leaves_builder)
              (mkWorld (mkCoffeeOrderBuilder (Some "espresso") (Some "medium") "oat"
                          ["vanilla"; "caramel"] 2 true 1) [])
              "espresso" "medium" (SetMilk "soy") eq_refl eq_refl eq_refl)
    as [r1 [w1 [o1 [r2 [w2 [o2 [H1 [H2 [H3 [H4 [H5 [H6 H7]]]]]]]]]]]].
  exists r1, w1, o1, r2, w2, o2.
  repeat split; try assumption.
  - assert (getattr o2 f_syrups = getattr o1 f_syrups) as E.
    { apply H7. simpl. intros [E|[E|[E|[]]]]; discriminate. }
    simpl in E. congruence.
  - assert (getattr o2 f_extra_shots = getattr o1 f_extra_shots) as E.
    { apply H7. simpl. intros [E|[E|[E|[]]]]; discriminate. }
    simpl in E. congruence.
Defined.

(** ** Syrups *)

Lemma add_syrup_present (w : world) (name : string) :
  In name (_syrups (self w)) -> add_syrup name w = (Ok tt, w).
Proof.
  intros H. apply list_contains_In in H.
  unfold add_syrup, bind, attr. rewrite H. reflexivity.
Qed.

Lemma not_contains (l : list string) (name : string) :
  ~ In name l -> list_contains l name = false.
Proof.
  intros H. destruct (list_contains l name) eqn:E; [|reflexivity].
  apply list_contains_In in E. contradiction.
Qed.

Lemma add_syrup_full (w : world) (name : string) :
  ~ In name (_syrups (self w)) -> 4 <= len (_syrups (self w)) ->
  add_syrup name w = (Raise (ValueError "Превышен лимит сиропов"), w).
Proof.
  intros H Hl. unfold add_syrup, bind, attr, raise_if, MAX_SYRUPS.
  rewrite (not_contains _ _ H). simpl negb. cbv iota.
  destruct (Z.leb_spec 4 (len (_syrups (self w)))); [reflexivity|lia].
Qed.

Lemma add_syrup_appends (w : world) (name : string) :
  ~ In name (_syrups (self w)) -> len (_syrups (self w)) < 4 ->
  add_syrup name w
  = (Ok tt, mkWorld (set_attr_syrups (_syrups (self w) ++ [name]) (self w)) (store w)).
Proof.
  intros H Hl. unfold add_syrup, bind, attr, raise_if, MAX_SYRUPS.
  rewrite (not_contains _ _ H). simpl negb. cbv iota.
  destruct (Z.leb_spec 4 (len (_syrups (self w)))); [lia|reflexivity].
Qed.

Lemma count_occ_new (l : list string) (name : string) :
  ~ In name l -> count_occ string_dec (l ++ [name]) name = 1%nat.
Proof.
  intros H. rewrite count_occ_app.
  rewrite (proj1 (count_occ_not_In string_dec l name) H).
  simpl. destruct (string_dec name name); [reflexivity|contradiction].
Qed.

(** C6. [add_syrup(name)] returns without a change when [name] is already
    held, also when four syrups are held; when it is not held and four (or
    more) are, it raises the LimitExceeded error and changes nothing; when
    it is not held and fewer than four are, it appends [name] after the
    ones held.  Adding a new name twice is adding it once: no error, the
    held ones stay in place before it, and it occurs exactly once. *)
Theorem C6_add_syrup :
  (forall w name,
      In name (_syrups (self w)) -> add_syrup name w = (Ok tt, w))
  /\ (forall w name,
         ~ In name (_syrups (self w)) -> 4 <= len (_syrups (self w)) ->
         add_syrup name w = (Raise (ValueError "Превышен лимит сиропов"), w)
         /\ failure_of (ValueError "Превышен лимит сиропов") = Some LimitExceeded)
  /\ (forall w name,
         ~ In name (_syrups (self w)) -> len (_syrups (self w)) < 4 ->
         add_syrup name w
         = (Ok tt, mkWorld (set_attr_syrups (_syrups (self w) ++ [name]) (self w))
                           (store w)))
  /\ (forall w name,
         ~ In name (_syrups (self w)) -> len (_syrups (self w)) < 4 ->
         (add_syrup name ;; add_syrup name) w
         = (Ok tt, mkWorld (set_attr_syrups (_syrups (self w) ++ [name]) (self w))
                           (store w))
         /\ count_occ string_dec (_syrups (self w) ++ [name]) name = 1%nat).
Proof.
  split; [exact add_syrup_present|]. split.
  { intros w name H Hl. split; [apply add_syrup_full; assumption|reflexivity]. }
  split; [exact add_syrup_appends|].
  intros w name H Hl. split; [|apply count_occ_new; assumption].
  unfold bind at 1. rewrite (add_syrup_appends w name H Hl).
  apply add_syrup_present. simpl. apply in_or_app. right. left. reflexivity.
Qed.

Lemma C6_add_syrup_witness :
  (add_syrup "vanilla" ;; add_syrup "vanilla") fresh
  = (Ok tt, mkWorld (set_attr_syrups ["vanilla"] init) [])
  /\ add_syrup "mint" (mkWorld (set_attr_syrups ["a"; "b"; "mint"; "c"] init) [])
     = (Ok tt, mkWorld (set_attr_syrups ["a"; "b"; "mint"; "c"] init) [])
  /\ add_syrup "mint" (mkWorld (set_attr_syrups ["a"; "b"; "c"; "d"] init) [])
     = (Raise (ValueError "Превышен лимит сиропов"),
        mkWorld (set_attr_syrups ["a"; "b"; "c"; "d"] init) []).
Proof.
  split; [|split].
  - apply (proj1 (proj2 (proj2 (proj2 C6_add_syrup)) fresh "vanilla"
                        (fun H : In "vanilla" [] => H) eq_refl)).
  - apply (proj1 C6_add_syrup
                 (mkWorld (set_attr_syrups ["a"; "b"; "mint"; "c"] init) []) "mint").
    simpl. auto.
  - apply (proj1 (proj2 C6_add_syrup)
                 (mkWorld (set_attr_syrups ["a"; "b"; "c"; "d"] init) []) "mint").
    + simpl. intros [E|[E|[E|[E|[]]]]]; discriminate.
    + vm_compute. discriminate.
Defined.

(** C10. [add_syrup] checks its argument against no catalog: whatever the
    string, an error it raises is never of the kind InvalidChoice (it is the
    LimitExceeded one), and a name not held goes in whenever fewer than
    four are held; the empty string goes into a new builder. *)
Theorem C10_add_syrup_any_name :
  (forall w name e w',
      add_syrup name w = (Raise e, w') ->
      failure_of e = Some LimitExceeded /\ failure_of e <> Some InvalidChoice)
  /\ (forall w name,
         ~ In name (_syrups (self w)) -> len (_syrups (self w)) < 4 ->
         fst (add_syrup name w) = Ok tt
         /\ _syrups (self (snd (add_syrup name w))) = _syrups (self w) ++ [name])
  /\ add_syrup "" fresh = (Ok tt, mkWorld (set_attr_syrups [""] init) []).
Proof.
  split; [|split].
  - intros w name e w' H. unfold add_syrup, bind, attr, raise_if in H.
    destruct (negb (list_contains (_syrups (self w)) name)).
    + destruct (MAX_SYRUPS <=? len (_syrups (self w))).
      * unfold raise in H. injection H as <- _. split; [reflexivity|discriminate].
      * discriminate.
    + discriminate.
  - intros w name H Hl. rewrite (add_syrup_appends w name H Hl). split; reflexivity.
  - reflexivity.
Qed.

Lemma C10_add_syrup_any_name_witness :
  _syrups (self (snd (add_syrup "not on any menu"
                        (mkWorld (set_attr_syrups ["a"] init) []))))
  = ["a"; "not on any menu"].
Proof.
  destruct (proj1 (proj2 C10_add_syrup_any_name)
              (mkWorld (set_attr_syrups ["a"] init) []) "not on any menu")
    as [_ H].
  - simpl. intros [E|[]]. discriminate.
  - reflexivity.
  - exact H.
Defined.

(** ** Shots *)

Lemma add_shot_negative (w : world) (count : Z) :
  count < 0 ->
  add_shot count w
  = (Raise (ValueError "Количество шотов не может быть отрицательным"), w).
Proof.
  intros H. unfold add_shot, bind, raise_if.
  destruct (Z.ltb_spec count 0); [reflexivity|lia].
Qed.

Lemma add_shot_over (w : world) (count : Z) :
  0 <= count -> 3 < _shots (self w) + count ->
  add_shot count w = (Raise (ValueError "Превышен лимит шотов"), w).
Proof.
  intros H Hl. unfold add_shot, bind, raise_if, attr, MAX_SHOTS.
  destruct (Z.ltb_spec count 0); [lia|]. simpl.
  destruct (Z.ltb_spec 3 (_shots (self w) + count)); [reflexivity|lia].
Qed.

Lemma add_shot_adds (w : world) (count : Z) :
  0 <= count -> _shots (self w) + count <= 3 ->
  add_shot count w
  = (Ok tt, mkWorld (set_attr_shots (_shots (self w) + count) (self w)) (store w)).
Proof.
  intros H Hl. unfold add_shot, bind, raise_if, attr, MAX_SHOTS.
  destruct (Z.ltb_spec count 0); [lia|]. simpl.
  destruct (Z.ltb_spec 3 (_shots (self w) + count)); [lia|reflexivity].
Qed.

(** C7. [add_shot(count)] raises the InvalidArgument error for a negative
    count; for a count that would take the total above three it raises the
    LimitExceeded error and the total stays what it was; otherwise the
    count is added to the total.  Two calls with the default count on a new
    builder leave a total of two, which is the [extra_shots] of the order
    built next. *)
Theorem C7_add_shot :
  (forall w count,
      count < 0 ->
      add_shot count w
      = (Raise (ValueError "Количество шотов не может быть отрицательным"), w)
      /\ failure_of (ValueError "Количество шотов не может быть отрицательным")
         = Some InvalidArgument)
  /\ (forall w count,
         0 <= count -> 3 < _shots (self w) + count ->
         add_shot count w = (Raise (ValueError "Превышен лимит шотов"), w)
         /\ failure_of (ValueError "Превышен лимит шотов") = Some LimitExceeded)
  /\ (forall w count,
         0 <= count -> _shots (self w) + count <= 3 ->
         add_shot count w
         = (Ok tt, mkWorld (set_attr_shots (_shots (self w) + count) (self w))
                           (store w)))
  /\ (add_shot_default ;; add_shot_default) fresh
     = (Ok tt, mkWorld (set_attr_shots 2 init) [])
  /\ (exists w o,
         (set_base "latte" ;; set_size "small" ;; add_shot_default ;;
          add_shot_default ;; build) fresh = (Ok 0%nat, w)
         /\ nth_error (store w) 0 = Some o /\ extra_shots o = 2).
Proof.
  split.
  { intros w count H. split; [apply add_shot_negative; assumption|reflexivity]. }
  split.
  { intros w count H Hl. split; [apply add_shot_over; assumption|reflexivity]. }
  split; [exact add_shot_adds|].
  split; [reflexivity|].
  eexists. eexists. vm_compute. repeat split.
Qed.

Lemma C7_add_shot_witness :
  add_shot 2 (mkWorld (set_attr_shots 2 init) [])
  = (Raise (ValueError "Превышен лимит шотов"), mkWorld (set_attr_shots 2 init) [])
  /\ add_shot (-1) fresh
     = (Raise (ValueError "Количество шотов не может быть отрицательным"), fresh)
  /\ add_shot 2 (mkWorld (set_attr_shots 1 init) [])
     = (Ok tt, mkWorld (set_attr_shots 3 init) []).
Proof.
  split; [|split].
  - apply (proj1 (proj2 C7_add_shot) (mkWorld (set_attr_shots 2 init) []) 2);
      simpl; lia.
  - apply (proj1 C7_add_shot fresh (-1)). lia.
  - apply (proj1 (proj2 (proj2 C7_add_shot)) (mkWorld (set_attr_shots 1 init) []) 2);
      simpl; lia.
Defined.

(** ** The invariant along every run *)

Lemma built_order_bounds (b : CoffeeOrderBuilder) (bs sz : string) (p : float) :
  valid b = true -> _base b = Some bs -> _size b = Some sz ->
  price_of bs sz (_milk b) (len (_syrups b)) (_shots b) (_iced b) = Ok p ->
  order_bounds (order_of bs sz b p).
Proof.
  intros Hv Hb Hs Hp.
  pose proof (valid_config _ _ _ Hv Hb Hs) as Hc.
  pose proof (price_of_formula _ Hc) as Hf.
  pose proof (price_spec_defined _ Hc) as Hd.
  change (at_config price_of (config_of bs sz b))
    with (price_of bs sz (_milk b) (len (_syrups b)) (_shots b) (_iced b)) in Hf.
  rewrite Hp in Hf.
  destruct (at_config price_spec_at (config_of bs sz b)) as [q|]; [|discriminate].
  simpl in Hf. injection Hf as ->.
  destruct (valid_bounds b Hv) as [Hn [Hl [Hsu Hsh]]].
  unfold order_bounds, order_of. simpl. auto.
Qed.

Lemma step_invariant (w : world) (c : call) :
  valid (self w) = true -> Forall order_bounds (store w) ->
  valid (self (step w c)) = true /\ Forall order_bounds (store (step w c)).
Proof.
  intros Hv Hst. split.
  - rewrite step_self. apply next_valid. assumption.
  - destruct c as [bs'|sz'|ms'|name|teaspoons|count|i| |]; unfold step; simpl exec.
    + unfold set_base, bind, raise_if.
      destruct (negb (dict_contains BASE_PRICES bs')); assumption.
    + unfold set_size, bind, raise_if.
      destruct (negb (dict_contains SIZE_MULTIPLIERS sz')); assumption.
    + unfold set_milk, bind, raise_if.
      destruct (negb (dict_contains MILK_SURCHARGES ms')); assumption.
    + unfold add_syrup, bind, attr, raise_if.
      destruct (negb (list_contains (_syrups (self w)) name)); [|assumption].
      destruct (MAX_SYRUPS <=? len (_syrups (self w))); assumption.
    + unfold set_sugar, bind, raise_if.
      destruct (negb ((0 <=? teaspoons) && (teaspoons <=? MAX_SUGAR))); assumption.
    + unfold add_shot, bind, attr, raise_if.
      destruct (count <? 0); [assumption|]. simpl.
      destruct (MAX_SHOTS <? _shots (self w) + count); assumption.
    + assumption.
    + assumption.
    + unfold bind.
      destruct (build_cases w) as [[e H]|[bs [sz [p [Hb [Hs [H Hp]]]]]]]; rewrite H.
      * assumption.
      * simpl. apply Forall_app. split; [assumption|].
        constructor; [|constructor].
        apply built_order_bounds; assumption.
Qed.

Lemma run_invariant (cs : list call) :
  forall w,
    valid (self w) = true -> Forall order_bounds (store w) ->
    valid (self (run cs w)) = true /\ Forall order_bounds (store (run cs w)).
Proof.
  induction cs as [|c cs IH]; intros w Hv Hst; simpl.
  - split; assumption.
  - destruct (step_invariant w c Hv Hst) as [Hv' Hst']. apply IH; assumption.
Qed.

Lemma reachable_valid (cs : list call) : valid (self (run cs fresh)) = true.
Proof.
  apply (run_invariant cs fresh); [reflexivity|constructor].
Qed.

(** C8. In every world reached from a new builder by any sequence of
    calls, each of which may go through or raise, the syrups of the builder
    are pairwise distinct and at most four, its sugar is between 0 and 5
    and its shots between 0 and 3; and every order built on the way has
    distinct syrups, at most four of them, sugar between 0 and 5, extra
    shots between 0 and 3 and a price that is not negative. *)
Theorem C8_reachable_bounds :
  forall cs : list call,
    builder_bounds (self (run cs fresh))
    /\ Forall order_bounds (store (run cs fresh)).
Proof.
  intros cs.
  destruct (run_invariant cs fresh) as [Hv Hst].
  - reflexivity.
  - constructor.
  - split; [apply valid_bounds; assumption|assumption].
Qed.

(** ** The iced surcharge *)

Lemma iced_table (c : config) :
  In c configs ->
  (let '(bs, (sz, (ms, (n, (k, _))))) := c in
   match price_spec_at bs sz ms n k false, price_spec_at bs sz ms n k true,
         exact_base_cost_at bs sz with
   | Some ph, Some pi, Some bc =>
       (ph <? pi)%float
       && Qeq_bool (inject_Z (cents pi - cents ph)) ((20 # 100) * bc * 100)
   | _, _, _ => false
   end) = true.
Proof. revert c. by_table. Qed.

(** C9, as the design states it, fails in the float arithmetic of the code:
    for the cappuccino above the prices are 454.0 hot and 530.8 iced (the
    float nearest to it); their float difference, which is also their exact
    difference, is below the float product 0.2 * (320.0 * 1.2), and is not
    the exact 20% of 320 * 1.2 either. *)
Lemma C9_iced_difference_counterexample :
  exists o_hot o_iced,
    build hot_cappuccino = (Ok 0%nat, mkWorld (self hot_cappuccino) [o_hot])
    /\ build iced_cappuccino = (Ok 0%nat, mkWorld (self iced_cappuccino) [o_iced])
    /\ price o_hot = 454.0%float
    /\ price o_iced = 530.8%float
    /\ (price o_iced - price o_hot =? 0.2 * (320.0 * 1.2))%float = false
    /\ (price o_iced - price o_hot <? 0.2 * (320.0 * 1.2))%float = true
    /\ ~ (exact_value (price o_iced) - exact_value (price o_hot)
          == (20 # 100) * (320 * (12 # 10)))%Q.
Proof.
  eexists. eexists.
  split; [vm_compute; reflexivity|].
  split; [vm_compute; reflexivity|].
  repeat split; try (vm_compute; reflexivity).
  intros E. apply Qeq_bool_iff in E. vm_compute in E. discriminate.
Qed.

(** C9, amended.  For two valid builders with base and size set that
    differ only in [_iced], the iced order's price is strictly greater
    than the hot one's, and counted in hundredths (the two-decimal amounts
    the two prices are rounded to) the difference is exactly 20% of
    [basePrice[base] * sizeMultiplier[size]]. *)
Theorem C9_iced_surcharge :
  forall (w_hot w_iced : world) (bs sz : string),
    valid (self w_hot) = true ->
    _base (self w_hot) = Some bs -> _size (self w_hot) = Some sz ->
    _iced (self w_hot) = false ->
    self w_iced = set_attr_iced true (self w_hot) ->
    exists o_hot o_iced bc,
      build w_hot = (Ok (List.length (store w_hot)),
                     mkWorld (self w_hot) (store w_hot ++ [o_hot]))
      /\ build w_iced = (Ok (List.length (store w_iced)),
                         mkWorld (self w_iced) (store w_iced ++ [o_iced]))
      /\ exact_base_cost (self w_hot) = Some bc
      /\ (price o_hot <? price o_iced)%float = true
      /\ (inject_Z (cents (price o_iced) - cents (price o_hot))
          == (20 # 100) * bc * 100)%Q.
Proof.
  intros w_hot w_iced bs sz Hv Hb Hs Hi Hself.
  pose proof (next_valid (SetIced true) _ Hv) as Hv'. simpl next in Hv'.
  rewrite <- Hself in Hv'.
  assert (_base (self w_iced) = Some bs) as Hb' by (rewrite Hself; exact Hb).
  assert (_size (self w_iced) = Some sz) as Hs' by (rewrite Hself; exact Hs).
  destruct (build_valid w_hot bs sz Hv Hb Hs) as [ph [Hph [_ Hbh]]].
  destruct (build_valid w_iced bs sz Hv' Hb' Hs') as [pi [Hpi [_ Hbi]]].
  pose proof (iced_table _ (valid_config _ _ _ Hv Hb Hs)) as T.
  unfold config_of in T.
  unfold price_spec in Hph, Hpi. rewrite Hb, Hs in Hph. rewrite Hb', Hs' in Hpi.
  rewrite Hself in Hpi. simpl in Hpi. rewrite Hi in Hph.
  rewrite Hph, Hpi in T.
  unfold exact_base_cost. rewrite Hb, Hs.
  destruct (exact_base_cost_at bs sz) as [bc|]; [|discriminate].
  apply andb_prop in T. destruct T as [Hlt Heq]. apply Qeq_bool_iff in Heq.
  exists (order_of bs sz (self w_hot) ph), (order_of bs sz (self w_iced) pi), bc.
  simpl price. auto.
Qed.

Lemma C9_iced_surcharge_witness :
  exists o_hot o_iced,
    build hot_cappuccino = (Ok 0%nat, mkWorld (self hot_cappuccino) [o_hot])
    /\ build iced_cappuccino = (Ok 0%nat, mkWorld (self iced_cappuccino) [o_iced])
    /\ (price o_hot <? price o_iced)%float = true
    /\ (inject_Z (cents (price o_iced) - cents (price o_hot))
        == (20 # 100) * (320 * (12 # 10)) * 100)%Q.
Proof.
  destruct (C9_iced_surcharge hot_cappuccino iced_cappuccino "cappuccino" "medium"
              eq_refl eq_refl eq_refl eq_refl eq_refl)
    as [o_hot [o_iced [bc [Hh [Hi [Hbc [Hlt Heq]]]]]]].
  exists o_hot, o_iced.
  vm_compute in Hbc. injection Hbc as <-.
  repeat split; assumption.
Defined.

(** * Further properties of the builder *)

(** ** The catalog setters *)

Lemma dict_contains_iff {V} (d : dict V) (k : string) :
  dict_contains d k = true <-> In k (keys d).
Proof.
  split; [apply dict_contains_keys|].
  unfold dict_contains, keys.
  induction d as [|[k' v] d IH]; simpl; [tauto|].
  intros [E|H].
  - subst. rewrite String.eqb_refl. reflexivity.
  - destruct (String.eqb k k'); [reflexivity|auto].
Qed.

Lemma prefix_append (s t : string) : prefix s (s ++ t) = true.
Proof.
  induction s as [|a s IH]; simpl.
  - destruct t; reflexivity.
  - destruct (ascii_dec a a); [exact IH|contradiction].
Qed.

Lemma guarded_assign_spec {V} (d : dict V) (msg : string)
    (write : string -> CoffeeOrderBuilder -> CoffeeOrderBuilder)
    (w : world) (v : string) :
  (In v (keys d) ->
   (raise_if (negb (dict_contains d v)) (ValueError (msg ++ v)%string) ;;
    assign (write v)) w
   = (Ok tt, mkWorld (write v (self w)) (store w)))
  /\ (~ In v (keys d) ->
      (raise_if (negb (dict_contains d v)) (ValueError (msg ++ v)%string) ;;
       assign (write v)) w
      = (Raise (ValueError (msg ++ v)%string), w)).
Proof.
  split; intros H.
  - apply dict_contains_iff in H. unfold bind, raise_if. rewrite H. reflexivity.
  - destruct (dict_contains d v) eqn:E.
    + apply dict_contains_iff in E. contradiction.
    + unfold bind, raise_if. reflexivity.
Qed.

(** X1. [set_base] accepts exactly espresso, americano, latte and
    cappuccino, [set_size] exactly small, medium and large, [set_milk]
    exactly none, whole, skim, oat and soy.  An accepted name is written to
    its attribute and nothing else changes; any other string raises a
    ValueError whose message ends in the string, an InvalidChoice failure,
    and leaves the world as it was. *)
Theorem X1_catalog_setters :
  catalog_setter set_base ["espresso"; "americano"; "latte"; "cappuccino"]
                 "Недопустимая база: " (fun v => set_attr_base (Some v))
  /\ catalog_setter set_size ["small"; "medium"; "large"]
                    "Недопустимый размер: " (fun v => set_attr_size (Some v))
  /\ catalog_setter set_milk ["none"; "whole"; "skim"; "oat"; "soy"]
                    "Недопустимое молоко: " set_attr_milk.
Proof.
  split; [|split]; intros w v.
  - destruct (guarded_assign_spec BASE_PRICES "Недопустимая база: "
                (fun v => set_attr_base (Some v)) w v) as [Hin Hout].
    split; [exact Hin|]. intros H. split; [exact (Hout H)|].
    unfold failure_of. rewrite prefix_append. rewrite ?orb_true_r. reflexivity.
  - destruct (guarded_assign_spec SIZE_MULTIPLIERS "Недопустимый размер: "
                (fun v => set_attr_size (Some v)) w v) as [Hin Hout].
    split; [exact Hin|]. intros H. split; [exact (Hout H)|].
    unfold failure_of. rewrite prefix_append. rewrite ?orb_true_r. reflexivity.
  - destruct (guarded_assign_spec MILK_SURCHARGES "Недопустимое молоко: "
                set_attr_milk w v) as [Hin Hout].
    split; [exact Hin|]. intros H. split; [exact (Hout H)|].
    unfold failure_of. rewrite prefix_append. rewrite ?orb_true_r. reflexivity.
Qed.

Lemma X1_catalog_setters_witness :
  set_size "large" fresh = (Ok tt, mkWorld (set_attr_size (Some "large") init) [])
  /\ set_milk "almond" fresh = (Raise (ValueError "Недопустимое молоко: almond"), fresh).
Proof.
  split.
  - apply (proj1 (proj1 (proj2 X1_catalog_setters) fresh "large")).
    simpl. auto.
  - apply (proj2 (proj2 (proj2 X1_catalog_setters) fresh "almond")).
    simpl. intros [E|[E|[E|[E|[E|[]]]]]]; discriminate.
Defined.

(** ** Sugar *)

Lemma set_sugar_in_range (w : world) (t : Z) :
  0 <= t <= 5 ->
  set_sugar t w = (Ok tt, mkWorld (set_attr_sugar t (self w)) (store w)).
Proof.
  intros H. unfold set_sugar, bind, raise_if, MAX_SUGAR.
  destruct (Z.leb_spec 0 t), (Z.leb_spec t 5); try lia. reflexivity.
Qed.

Lemma set_sugar_out_of_range (w : world) (t : Z) :
  t < 0 \/ 5 < t ->
  set_sugar t w = (Raise (ValueError "Сахар должен быть в диапазоне 0..5"), w).
Proof.
  intros H. unfold set_sugar, bind, raise_if, MAX_SUGAR.
  destruct (Z.leb_spec 0 t), (Z.leb_spec t 5); try lia; reflexivity.
Qed.

(** X2. [set_sugar(t)] writes [t] when it is between 0 and 5 and changes
    nothing else; below 0 or above 5 it raises the OutOfRange error and
    changes nothing.  An accepted value is the [sugar] of the order built
    next. *)
Theorem X2_set_sugar :
  (forall w t,
      0 <= t <= 5 ->
      set_sugar t w = (Ok tt, mkWorld (set_attr_sugar t (self w)) (store w)))
  /\ (forall w t,
         t < 0 \/ 5 < t ->
         set_sugar t w = (Raise (ValueError "Сахар должен быть в диапазоне 0..5"), w)
         /\ failure_of (ValueError "Сахар должен быть в диапазоне 0..5")
            = Some OutOfRange)
  /\ (forall w bs sz t,
         valid (self w) = true ->
         _base (self w) = Some bs -> _size (self w) = Some sz ->
         0 <= t <= 5 ->
         exists w' o,
           (set_sugar t ;; build) w = (Ok (List.length (store w)), w')
           /\ nth_error (store w') (List.length (store w)) = Some o
           /\ sugar o = t).
Proof.
  split; [exact set_sugar_in_range|]. split.
  { intros w t H. split; [apply set_sugar_out_of_range; exact H|reflexivity]. }
  intros w bs sz t Hv Hb Hs Ht.
  unfold bind. rewrite (set_sugar_in_range w t Ht).
  set (w1 := mkWorld (set_attr_sugar t (self w)) (store w)).
  assert (valid (self w1) = true) as Hv1.
  { pose proof (next_valid (SetSugar t) _ Hv) as H. unfold next, MAX_SUGAR in H.
    destruct (Z.leb_spec 0 t), (Z.leb_spec t 5); try lia. exact H. }
  destruct (build_valid w1 bs sz Hv1 Hb Hs) as [p [_ [_ Hbuild]]].
  rewrite Hbuild. eexists. eexists. split; [reflexivity|].
  split; [apply nth_error_last|reflexivity].
Qed.

Lemma X2_set_sugar_witness :
  set_sugar 5 fresh = (Ok tt, mkWorld (set_attr_sugar 5 init) [])
  /\ set_sugar 6 fresh = (Raise (ValueError "Сахар должен быть в диапазоне 0..5"), fresh)
  /\ set_sugar (-1) fresh = (Raise (ValueError "Сахар должен быть в диапазоне 0..5"), fresh).
Proof.
  split; [|split].
  - apply (proj1 X2_set_sugar fresh 5). lia.
  - apply (proj1 (proj2 X2_set_sugar) fresh 6). lia.
  - apply (proj1 (proj2 X2_set_sugar) fresh (-1)). lia.
Defined.

(** ** Overwriting and accumulating *)

Lemma guarded_assign_twice {V} (d : dict V) (msg : string)
    (write : string -> CoffeeOrderBuilder -> CoffeeOrderBuilder)
    (w : world) (a b : string) :
  (forall u v x, write v (write u x) = write v x) ->
  In a (keys d) -> In b (keys d) ->
  ((raise_if (negb (dict_contains d a)) (ValueError (msg ++ a)%string) ;;
    assign (write a)) ;;
   (raise_if (negb (dict_contains d b)) (ValueError (msg ++ b)%string) ;;
    assign (write b))) w
  = (raise_if (negb (dict_contains d b)) (ValueError (msg ++ b)%string) ;;
     assign (write b)) w.
Proof.
  intros Hw Ha Hb.
  unfold bind at 1.
  rewrite (proj1 (guarded_assign_spec d msg write w a) Ha).
  rewrite (proj1 (guarded_assign_spec d msg write _ b) Hb).
  rewrite (proj1 (guarded_assign_spec d msg write w b) Hb).
  simpl. rewrite Hw. reflexivity.
Qed.

(** X3. The setters overwrite: two accepted calls of [set_base], of
    [set_size], of [set_milk], of [set_sugar] or of [set_iced] in a row
    leave the world the second call alone would leave. *)
Theorem X3_setters_overwrite :
  (forall w a b,
      In a (keys BASE_PRICES) -> In b (keys BASE_PRICES) ->
      (set_base a ;; set_base b) w = set_base b w)
  /\ (forall w a b,
         In a (keys SIZE_MULTIPLIERS) -> In b (keys SIZE_MULTIPLIERS) ->
         (set_size a ;; set_size b) w = set_size b w)
  /\ (forall w a b,
         In a (keys MILK_SURCHARGES) -> In b (keys MILK_SURCHARGES) ->
         (set_milk a ;; set_milk b) w = set_milk b w)
  /\ (forall w a b,
         0 <= a <= 5 -> 0 <= b <= 5 ->
         (set_sugar a ;; set_sugar b) w = set_sugar b w)
  /\ (forall w a b, (set_iced a ;; set_iced b) w = set_iced b w).
Proof.
  split; [|split; [|split; [|split]]].
  - intros w a b. apply (guarded_assign_twice BASE_PRICES _
                           (fun v => set_attr_base (Some v))). reflexivity.
  - intros w a b. apply (guarded_assign_twice SIZE_MULTIPLIERS _
                           (fun v => set_attr_size (Some v))). reflexivity.
  - intros w a b. apply (guarded_assign_twice MILK_SURCHARGES _ set_attr_milk).
    reflexivity.
  - intros w a b Ha Hb. unfold bind.
    rewrite (set_sugar_in_range w a Ha), !(set_sugar_in_range _ b Hb). reflexivity.
  - intros w a b. reflexivity.
Qed.

Lemma X3_setters_overwrite_witness :
  (set_base "latte" ;; set_base "espresso") fresh
  = (Ok tt, mkWorld (set_attr_base (Some "espresso") init) [])
  /\ (set_sugar 4 ;; set_sugar 0) fresh = (Ok tt, fresh).
Proof.
  split.
  - rewrite (proj1 X3_setters_overwrite fresh "latte" "espresso");
      [reflexivity|simpl; auto|simpl; auto].
  - rewrite (proj1 (proj2 (proj2 (proj2 X3_setters_overwrite))) fresh 4 0);
      [reflexivity|lia|lia].
Defined.

(** X4. [add_shot] accumulates: for counts [a] and [b] that are not
    negative, the chain [add_shot(a).add_shot(b)] returns or raises as
    [add_shot(a + b)] does, and when the total fits the two leave the same
    world.  When [a] fits and [a + b] does not, the chain raises the limit
    error after the first call went through: the builder keeps the [a]
    shots, where the single call would have kept none. *)
Theorem X4_add_shot_accumulates :
  forall w a b,
    0 <= a -> 0 <= b ->
    fst ((add_shot a ;; add_shot b) w) = fst (add_shot (a + b) w)
    /\ (_shots (self w) + a + b <= 3 ->
        (add_shot a ;; add_shot b) w = add_shot (a + b) w)
    /\ (_shots (self w) + a <= 3 -> 3 < _shots (self w) + a + b ->
        (add_shot a ;; add_shot b) w
        = (Raise (ValueError "Превышен лимит шотов"),
           mkWorld (set_attr_shots (_shots (self w) + a) (self w)) (store w))
        /\ add_shot (a + b) w = (Raise (ValueError "Превышен лимит шотов"), w)).
Proof.
  intros w a b Ha Hb.
  assert (0 <= a + b) as Hab by lia.
  destruct (Z_le_gt_dec (_shots (self w) + a) 3) as [Hfit|Hover].
  - pose proof (add_shot_adds w a Ha Hfit) as E1.
    destruct (Z_le_gt_dec (_shots (self w) + a + b) 3) as [Hfit2|Hover2].
    + assert ((add_shot a ;; add_shot b) w = add_shot (a + b) w) as E.
      { unfold bind. rewrite E1.
        rewrite add_shot_adds by (simpl; lia).
        rewrite (add_shot_adds w (a + b)) by lia.
        simpl. unfold set_attr_shots. simpl. rewrite Z.add_assoc. reflexivity. }
      rewrite E. split; [reflexivity|]. split; [reflexivity|]. intros; lia.
    + assert ((add_shot a ;; add_shot b) w
              = (Raise (ValueError "Превышен лимит шотов"),
                 mkWorld (set_attr_shots (_shots (self w) + a) (self w)) (store w)))
        as E.
      { unfold bind. rewrite E1. apply add_shot_over; simpl; lia. }
      rewrite E. rewrite (add_shot_over w (a + b)) by lia.
      split; [reflexivity|]. split; [intros; lia|]. intros _ _. split; reflexivity.
  - assert ((add_shot a ;; add_shot b) w
            = (Raise (ValueError "Превышен лимит шотов"), w)) as E.
    { unfold bind. rewrite (add_shot_over w a) by lia. reflexivity. }
    rewrite E. rewrite (add_shot_over w (a + b)) by lia.
    split; [reflexivity|]. split; intros; lia.
Qed.

Lemma X4_add_shot_accumulates_witness :
  (add_shot 2 ;; add_shot 2) fresh
  = (Raise (ValueError "Превышен лимит шотов"), mkWorld (set_attr_shots 2 init) [])
  /\ add_shot (2 + 2) fresh = (Raise (ValueError "Превышен лимит шотов"), fresh).
Proof.
  apply (proj2 (proj2 (X4_add_shot_accumulates fresh 2 2 ltac:(lia) ltac:(lia))));
    simpl; lia.
Defined.

(** ** [clear_extras] *)

Lemma plain_price (bs sz : string) :
  In bs (keys BASE_PRICES) -> In sz (keys SIZE_MULTIPLIERS) ->
  exists bp sm,
    dict_find BASE_PRICES bs = Some bp /\ dict_find SIZE_MULTIPLIERS sz = Some sm
    /\ price_of bs sz DEFAULT_MILK 0 0 false = Ok (bp * sm)%float.
Proof.
  intros Hb Hs. simpl in Hb, Hs.
  repeat match goal with
         | H : _ \/ _ |- _ => destruct H as [H|H]
         | H : False |- _ => destruct H
         end;
    subst; eexists; eexists; vm_compute; repeat split.
Qed.

(** X5. [clear_extras] never raises: it puts milk, syrups, sugar, shots and
    the iced flag back to their defaults and leaves base, size and the
    orders built so far as they are; a second call changes nothing more.
    On a valid builder with base and size set, the order built after it is
    the plain drink: its description is the size and the base, and its
    price is the float product of the base price and the size multiplier. *)
Theorem X5_clear_extras :
  (forall w,
      clear_extras w
      = (Ok tt, mkWorld (mkCoffeeOrderBuilder (_base (self w)) (_size (self w))
                                              "none" [] 0 false 0) (store w)))
  /\ (forall w, (clear_extras ;; clear_extras) w = clear_extras w)
  /\ (forall w bs sz,
         valid (self w) = true ->
         _base (self w) = Some bs -> _size (self w) = Some sz ->
         exists w' bp sm,
           (clear_extras ;; build) w = (Ok (List.length (store w)), w')
           /\ dict_find BASE_PRICES bs = Some bp
           /\ dict_find SIZE_MULTIPLIERS sz = Some sm
           /\ store w'
              = store w ++ [mkCoffeeOrder bs sz "none" [] 0 false (bp * sm)%float
                                          (sz ++ " " ++ bs)%string 0]).
Proof.
  split; [reflexivity|]. split; [reflexivity|].
  intros w bs sz Hv Hb Hs.
  apply valid_iff in Hv. destruct Hv as [Kb Ks _ _ _ _ _].
  rewrite Hb in Kb. rewrite Hs in Ks. simpl in Kb, Ks.
  apply dict_contains_iff in Kb. apply dict_contains_iff in Ks.
  destruct (plain_price bs sz Kb Ks) as [bp [sm [Hbp [Hsm Hp]]]].
  set (w1 := mkWorld (mkCoffeeOrderBuilder (_base (self w)) (_size (self w))
                                           "none" [] 0 false 0) (store w)).
  assert ((clear_extras ;; build) w = build w1) as E by reflexivity.
  rewrite E. rewrite (build_eq w1 bs sz Hb Hs). simpl.
  change (len []) with 0. change "none" with DEFAULT_MILK. rewrite Hp.
  eexists. exists bp, sm. repeat split; assumption.
Qed.

Lemma X5_clear_extras_witness :
  exists w',
    (clear_extras ;; build)
      (mkWorld (mkCoffeeOrderBuilder (Some "cappuccino") (Some "large") "oat"
                  ["mint"; "vanilla"] 3 true 2) [])
    = (Ok 0%nat, w')
    /\ store w' = [mkCoffeeOrder "cappuccino" "large" "none" [] 0 false 448.0%float
                                "large cappuccino" 0].
Proof.
  destruct (proj2 (proj2 X5_clear_extras)
              (mkWorld (mkCoffeeOrderBuilder (Some "cappuccino") (Some "large") "oat"
                          ["mint"; "vanilla"] 3 true 2) [])
              "cappuccino" "large" eq_refl eq_refl eq_refl)
    as [w' [bp [sm [H [Hbp [Hsm Hst]]]]]].
  exists w'. split; [exact H|].
  vm_compute in Hbp, Hsm. injection Hbp as <-. injection Hsm as <-.
  rewrite Hst. vm_compute. reflexivity.
Defined.

(** ** Runs of calls *)

Lemma step_store_cases (w : world) (c : call) :
  store (step w c) = store w
  \/ (c = Build /\
      exists bs sz p,
        _base (self w) = Some bs /\ _size (self w) = Some sz
        /\ price_of bs sz (_milk (self w)) (len (_syrups (self w)))
                     (_shots (self w)) (_iced (self w)) = Ok p
        /\ store (step w c) = store w ++ [order_of bs sz (self w) p]).
Proof.
  destruct c as [bs'|sz'|ms'|name|teaspoons|count|i| |]; unfold step; simpl exec;
    [left .. | ].
  - unfold set_base, bind, raise_if.
    destruct (negb (dict_contains BASE_PRICES bs')); reflexivity.
  - unfold set_size, bind, raise_if.
    destruct (negb (dict_contains SIZE_MULTIPLIERS sz')); reflexivity.
  - unfold set_milk, bind, raise_if.
    destruct (negb (dict_contains MILK_SURCHARGES ms')); reflexivity.
  - unfold add_syrup, bind, attr, raise_if.
    destruct (negb (list_contains (_syrups (self w)) name)); [|reflexivity].
    destruct (MAX_SYRUPS <=? len (_syrups (self w))); reflexivity.
  - unfold set_sugar, bind, raise_if.
    destruct (negb ((0 <=? teaspoons) && (teaspoons <=? MAX_SUGAR))); reflexivity.
  - unfold add_shot, bind, attr, raise_if.
    destruct (count <? 0); [reflexivity|]. simpl.
    destruct (MAX_SHOTS <? _shots (self w) + count); reflexivity.
  - reflexivity.
  - reflexivity.
  - unfold bind.
    destruct (build_cases w) as [[e H]|[bs [sz [p [Hb [Hs [H Hp]]]]]]]; rewrite H.
    + left. reflexivity.
    + right. split; [reflexivity|]. exists bs, sz, p. auto.
Qed.

Lemma run_cons (c : call) (cs : list call) (w : world) :
  run (c :: cs) w = run cs (step w c).
Proof. reflexivity. Qed.

(** A property of the orders that valid builders make holds of every order
    in the store along every run. *)
Lemma run_preserves (P : CoffeeOrder -> Prop) :
  (forall b bs sz p,
      valid b = true -> _base b = Some bs -> _size b = Some sz ->
      price_of bs sz (_milk b) (len (_syrups b)) (_shots b) (_iced b) = Ok p ->
      P (order_of bs sz b p)) ->
  forall cs w,
    valid (self w) = true -> Forall P (store w) ->
    Forall P (store (run cs w)).
Proof.
  intros HP cs. induction cs as [|c cs IH]; intros w Hv Hst; [exact Hst|].
  rewrite run_cons. apply IH.
  - rewrite step_self. apply next_valid. exact Hv.
  - destruct (step_store_cases w c) as [E|[_ [bs [sz [p [Hb [Hs [Hp E]]]]]]]];
      rewrite E; [exact Hst|].
    apply Forall_app. split; [exact Hst|].
    constructor; [|constructor]. apply HP; assumption.
Qed.

Lemma run_ready (cs : list call) :
  forall w bs sz,
    valid (self w) = true ->
    _base (self w) = Some bs -> _size (self w) = Some sz ->
    valid (self (run cs w)) = true
    /\ exists bs' sz',
        _base (self (run cs w)) = Some bs' /\ _size (self (run cs w)) = Some sz'.
Proof.
  induction cs as [|c cs IH]; intros w bs sz Hv Hb Hs.
  - simpl. eauto.
  - rewrite run_cons.
    destruct (next_base c _ _ Hb) as [bs' Hb'].
    destruct (next_size c _ _ Hs) as [sz' Hs'].
    pose proof (next_valid c _ Hv) as Hv'.
    rewrite <- step_self in Hb', Hs', Hv'.
    apply (IH _ bs' sz'); assumption.
Qed.

(** X7. No method unsets base or size: once [build] has returned an order
    on a valid builder, it returns one again after any further calls,
    whether they go through or raise. *)
Theorem X7_build_stays_possible :
  forall w r w1 cs,
    valid (self w) = true ->
    build w = (Ok r, w1) ->
    exists r' w', build (run cs w1) = (Ok r', w') /\ r <> r'.
Proof.
  intros w r w1 cs Hv H.
  destruct (build_cases w) as [[e He]|[bs [sz [p [Hb [Hs [Hok _]]]]]]];
    [congruence|].
  rewrite Hok in H. injection H as <- <-.
  set (w1 := mkWorld (self w) (store w ++ [order_of bs sz (self w) p])).
  destruct (run_ready cs w1 bs sz Hv Hb Hs) as [Hv' [bs' [sz' [Hb' Hs']]]].
  destruct (build_valid _ bs' sz' Hv' Hb' Hs') as [p' [_ [_ Hbuild]]].
  eexists. eexists. split; [exact Hbuild|].
  assert (List.length (store w1) <= List.length (store (run cs w1)))%nat as Hle.
  { clear. generalize w1. induction cs as [|c cs IH]; intros w0; [simpl; lia|].
    rewrite run_cons. specialize (IH (step w0 c)).
    destruct (step_store w0 c) as [l E]. rewrite E, length_app in IH. lia. }
  unfold w1 in Hle at 1. simpl store in Hle. rewrite length_app in Hle.
  simpl in Hle. lia.
Qed.

Lemma X7_build_stays_possible_witness :
  exists r' w',
    build (run [ClearExtras; SetBase "tea"; AddShot 7; SetSugar 9]
               (snd ((set_base "latte" ;; set_size "small" ;; build) fresh)))
    = (Ok r', w')
    /\ 0%nat <> r'.
Proof.
  apply (X7_build_stays_possible
           (snd ((set_base "latte" ;; set_size "small") fresh)) 0%nat);
    reflexivity.
Defined.

(** ** The store of orders *)

Lemma builds_cons (c : call) (cs : list call) :
  builds (c :: cs) = ((if is_build c then 1 else 0) + builds cs)%nat.
Proof. unfold builds. simpl. destruct (is_build c); reflexivity. Qed.

Lemma step_keeps_orders (w : world) (c : call) (r : ref) (o : CoffeeOrder) :
  nth_error (store w) r = Some o -> nth_error (store (step w c)) r = Some o.
Proof.
  intros H. destruct (step_store w c) as [l E]. rewrite E.
  apply nth_error_keep. exact H.
Qed.

(** X8. Orders are never changed or dropped: a reference into the store
    reads the same order after any run of calls.  Only [build] allocates:
    a run adds at most one order per [build] call in it, and exactly one
    per [build] call when it starts from a valid builder with base and size
    set. *)
Theorem X8_store_grows_by_builds :
  (forall cs w r o,
      nth_error (store w) r = Some o ->
      nth_error (store (run cs w)) r = Some o)
  /\ (forall cs w,
         (List.length (store (run cs w)) <= List.length (store w) + builds cs)%nat)
  /\ (forall cs w bs sz,
         valid (self w) = true ->
         _base (self w) = Some bs -> _size (self w) = Some sz ->
         List.length (store (run cs w)) = (List.length (store w) + builds cs)%nat).
Proof.
  split; [|split].
  - intros cs. induction cs as [|c cs IH]; intros w r o H; [exact H|].
    rewrite run_cons. apply IH. apply step_keeps_orders. exact H.
  - intros cs. induction cs as [|c cs IH]; intros w.
    + simpl. lia.
    + rewrite run_cons, builds_cons. specialize (IH (step w c)).
      destruct (step_store_cases w c) as [E|[-> [bs [sz [p [_ [_ [_ E]]]]]]]];
        rewrite E in IH.
      * lia.
      * rewrite length_app in IH. simpl in *. lia.
  - intros cs. induction cs as [|c cs IH]; intros w bs sz Hv Hb Hs.
    + simpl. unfold builds. simpl. lia.
    + rewrite run_cons, builds_cons.
      destruct (next_base c _ _ Hb) as [bs' Hb'].
      destruct (next_size c _ _ Hs) as [sz' Hs'].
      pose proof (next_valid c _ Hv) as Hv'.
      rewrite <- step_self in Hb', Hs', Hv'.
      rewrite (IH _ bs' sz' Hv' Hb' Hs').
      destruct c as [x|x|x|x|x|x|x| |];
        try (match goal with
             | |- context [step w ?c] =>
                 destruct (step_store_cases w c) as [E|[D _]];
                 [rewrite E; simpl; lia|discriminate]
             end).
      destruct (build_valid w bs sz Hv Hb Hs) as [p [_ [_ Hbuild]]].
      change (step w Build) with (snd ((build ;; ret tt) w)).
      unfold bind. rewrite Hbuild. simpl.
      rewrite length_app. simpl. lia.
Qed.

Lemma X8_store_grows_by_builds_witness :
  List.length
    (store (run [Build; SetSugar 9; AddSyrup "mint"; Build]
                (mkWorld (mkCoffeeOrderBuilder (Some "latte") (Some "small") "none"
                            [] 0 false 0) [])))
  = 2%nat.
Proof.
  apply (proj2 (proj2 X8_store_grows_by_builds)
           [Build; SetSugar 9; AddSyrup "mint"; Build]
           (mkWorld (mkCoffeeOrderBuilder (Some "latte") (Some "small") "none"
                       [] 0 false 0) [])
           "latte" "small");
    reflexivity.
Defined.

(** ** What an order prints as *)

Lemma append_empty_r (s : string) : (s ++ "")%string = s.
Proof. induction s as [|a s IH]; simpl; [reflexivity|rewrite IH; reflexivity]. Qed.

Lemma join_head (h : string) (l : list string) :
  exists rest, join " " (h :: l) = (h ++ rest)%string.
Proof.
  destruct l as [|x l]; simpl.
  - exists "". rewrite append_empty_r. reflexivity.
  - eexists. reflexivity.
Qed.

Lemma description_of_head (bs sz : string) (b : CoffeeOrderBuilder) :
  exists rest, description_of bs sz b = ((sz ++ " " ++ bs) ++ rest)%string.
Proof.
  unfold description_of.
  destruct (negb (_milk b =? DEFAULT_MILK)%string), (_syrups b), (_iced b),
    (negb (_sugar b =? 0)), (negb (_shots b =? 0));
    cbn [app]; apply join_head.
Qed.

Lemma headed_not_empty (sz bs rest : string) :
  (((sz ++ " " ++ bs) ++ rest) =? "")%string = false.
Proof. destruct sz; reflexivity. Qed.

Lemma built_shows_description (b : CoffeeOrderBuilder) (bs sz : string) (p : float) :
  shows_description (order_of bs sz b p).
Proof.
  unfold shows_description, __str__, order_of. simpl.
  destruct (description_of_head bs sz b) as [rest E]. rewrite E.
  rewrite headed_not_empty. simpl negb. cbv iota.
  split; [reflexivity|apply prefix_append].
Qed.

(** X6. Every order built along a run from a new builder prints as its
    description, which begins with the size, a space and the base: the
    fallback of [__str__] is never used for a built order.  An order made
    by hand with an empty description prints size, base and the price with
    two digits after the point. *)
Theorem X6_str_of_built_orders :
  (forall cs, Forall shows_description (store (run cs fresh)))
  /\ __str__ (mkCoffeeOrder "cappuccino" "medium" "none" [] 0 true 530.8%float "" 1)
     = "medium cappuccino (530.80)"
  /\ __str__ (mkCoffeeOrder "latte" "small" "none" [] 0 false 0.125%float "" 0)
     = "small latte (0.12)".
Proof.
  split; [|split; vm_compute; reflexivity].
  intros cs. apply run_preserves.
  - intros b bs sz p _ _ _ _. apply built_shows_description.
  - reflexivity.
  - constructor.
Qed.

(** ** The failures a call can end in *)

Lemma guarded_assign_raises (c : bool) (e e' : exn)
    (f : CoffeeOrderBuilder -> CoffeeOrderBuilder) (w w' : world) :
  (raise_if c e ;; assign f) w = (Raise e', w') -> e' = e.
Proof.
  unfold bind, raise_if. destruct c; simpl; intros H.
  - unfold raise in H. congruence.
  - discriminate.
Qed.

Lemma invalid_choice_base (v : string) :
  failure_of (ValueError ("Недопустимая база: " ++ v)) = Some InvalidChoice.
Proof. unfold failure_of. rewrite prefix_append. reflexivity. Qed.

Lemma invalid_choice_size (v : string) :
  failure_of (ValueError ("Недопустимый размер: " ++ v)) = Some InvalidChoice.
Proof. unfold failure_of. rewrite prefix_append, orb_true_r. reflexivity. Qed.

Lemma invalid_choice_milk (v : string) :
  failure_of (ValueError ("Недопустимое молоко: " ++ v)) = Some InvalidChoice.
Proof. unfold failure_of. rewrite prefix_append, orb_true_r. reflexivity. Qed.

(** X9. On a valid builder a call raises nothing but the [ValueError]s of
    the source: never a [KeyError], an [AssertionError] or an
    [OverflowError] from the price computation.  A failing [set_base],
    [set_size] or [set_milk] is an InvalidChoice, a failing [add_syrup] a
    LimitExceeded, a failing [set_sugar] an OutOfRange, a failing
    [add_shot] an InvalidArgument or a LimitExceeded, a failing [build] a
    MissingField; [set_iced] and [clear_extras] never fail. *)
Theorem X9_failure_kinds :
  forall w c e w',
    valid (self w) = true ->
    exec c w = (Raise e, w') ->
    exists k, failure_of e = Some k /\ In k (failure_kinds c).
Proof.
  intros w c e w' Hv H.
  destruct c as [bs'|sz'|ms'|name|teaspoons|count|i| |]; simpl exec in H;
    simpl failure_kinds.
  - apply guarded_assign_raises in H. subst e.
    exists InvalidChoice. split; [apply invalid_choice_base|simpl; auto].
  - apply guarded_assign_raises in H. subst e.
    exists InvalidChoice. split; [apply invalid_choice_size|simpl; auto].
  - apply guarded_assign_raises in H. subst e.
    exists InvalidChoice. split; [apply invalid_choice_milk|simpl; auto].
  - unfold add_syrup, bind, attr, raise_if in H.
    destruct (negb (list_contains (_syrups (self w)) name)); [|discriminate].
    destruct (MAX_SYRUPS <=? len (_syrups (self w))); [|discriminate].
    unfold raise in H. injection H as <- _.
    exists LimitExceeded. split; [reflexivity|simpl; auto].
  - apply guarded_assign_raises in H. subst e.
    exists OutOfRange. split; [reflexivity|simpl; auto].
  - destruct (Z_lt_ge_dec count 0) as [Hneg|Hpos].
    + rewrite (add_shot_negative w count Hneg) in H. injection H as <- _.
      exists InvalidArgument. split; [reflexivity|simpl; auto].
    + destruct (Z_le_gt_dec (_shots (self w) + count) 3) as [Hfit|Hover].
      * rewrite (add_shot_adds w count) in H by lia. discriminate.
      * rewrite (add_shot_over w count) in H by lia. injection H as <- _.
        exists LimitExceeded. split; [reflexivity|simpl; auto].
  - discriminate.
  - discriminate.
  - unfold bind in H.
    destruct (_base (self w)) as [bs|] eqn:Hb.
    + destruct (_size (self w)) as [sz|] eqn:Hs.
      * destruct (build_valid w bs sz Hv Hb Hs) as [p [_ [_ Hbuild]]].
        rewrite Hbuild in H. discriminate.
      * rewrite (build_no_size w bs Hb Hs) in H. injection H as <- _.
        exists MissingField. split; [reflexivity|simpl; auto].
    + rewrite (build_no_base w Hb) in H. injection H as <- _.
      exists MissingField. split; [reflexivity|simpl; auto].
Qed.

Lemma X9_failure_kinds_witness :
  exists k,
    failure_of (ValueError "Превышен лимит шотов") = Some k
    /\ In k (failure_kinds (AddShot 4)).
Proof.
  apply (X9_failure_kinds fresh (AddShot 4) (ValueError "Превышен лимит шотов") fresh);
    reflexivity.
Defined.

(** ** How the extras add up, and the range of prices *)

Lemma price_steps_table (c : config) :
  In c configs ->
  (let '(bs, (sz, (ms, (n, (k, ic))))) := c in
   match price_spec_at bs sz ms n k ic, price_spec_at bs sz ms 0 0 ic with
   | Some p, Some p0 =>
       (cents p =? cents p0 + 4000 * n + 7000 * k)
       && (200.0 <=? p)%float && (p <=? 967.6)%float
   | _, _ => false
   end) = true.
Proof. revert c. by_table. Qed.

Lemma price_steps (b : CoffeeOrderBuilder) (bs sz : string) :
  valid b = true -> _base b = Some bs -> _size b = Some sz ->
  exists p p0,
    price_spec b = Some p
    /\ price_spec_at bs sz (_milk b) 0 0 (_iced b) = Some p0
    /\ cents p = cents p0 + 4000 * len (_syrups b) + 7000 * _shots b
    /\ (200.0 <=? p)%float = true /\ (p <=? 967.6)%float = true.
Proof.
  intros Hv Hb Hs.
  pose proof (price_steps_table _ (valid_config _ _ _ Hv Hb Hs)) as T.
  unfold config_of in T. rewrite (price_spec_config b bs sz Hb Hs).
  unfold config_of, at_config.
  destruct (price_spec_at bs sz (_milk b) (len (_syrups b)) (_shots b) (_iced b))
    as [p|]; [|discriminate].
  destruct (price_spec_at bs sz (_milk b) 0 0 (_iced b)) as [p0|]; [|discriminate].
  apply andb_prop in T. destruct T as [T Hhi].
  apply andb_prop in T. destruct T as [Hc Hlo].
  apply Z.eqb_eq in Hc. exists p, p0. auto.
Qed.

Lemma price_after_ok (m : M unit) (w w1 : world) (bs sz : string) :
  m w = (Ok tt, w1) ->
  valid (self w1) = true -> _base (self w1) = Some bs -> _size (self w1) = Some sz ->
  price_after m w = price_spec (self w1).
Proof.
  intros Hm Hv Hb Hs. unfold price_after, bind. rewrite Hm.
  destruct (build_valid w1 bs sz Hv Hb Hs) as [p [Hp [_ Hbuild]]].
  rewrite Hbuild, Hp. simpl store. rewrite nth_error_last. reflexivity.
Qed.

(** X10. On a valid builder with base and size set, every new syrup that
    is accepted makes the next order exactly 40.00 dearer, and an accepted
    [add_shot(count)] makes it exactly 70.00 times [count] dearer, counted
    in hundredths of the rounded prices. *)
Theorem X10_extras_add_up :
  forall w bs sz,
    valid (self w) = true ->
    _base (self w) = Some bs -> _size (self w) = Some sz ->
    exists p,
      price_after (ret tt) w = Some p
      /\ (forall name,
             ~ In name (_syrups (self w)) -> len (_syrups (self w)) < 4 ->
             exists p', price_after (add_syrup name) w = Some p'
                        /\ cents p' = cents p + 4000)
      /\ (forall count,
             0 <= count -> _shots (self w) + count <= 3 ->
             exists p', price_after (add_shot count) w = Some p'
                        /\ cents p' = cents p + 7000 * count).
Proof.
  intros w bs sz Hv Hb Hs.
  destruct (price_steps _ bs sz Hv Hb Hs) as [p [p0 [Hp [Hp0 [Hc _]]]]].
  exists p. split; [|split].
  - rewrite (price_after_ok (ret tt) w w bs sz eq_refl Hv Hb Hs). exact Hp.
  - intros name Hnew Hroom.
    pose proof (add_syrup_appends w name Hnew Hroom) as Hadd.
    set (w1 := mkWorld (set_attr_syrups (_syrups (self w) ++ [name]) (self w))
                       (store w)) in *.
    assert (valid (self w1) = true) as Hv1.
    { pose proof (next_valid (AddSyrup name) _ Hv) as H. unfold next, MAX_SYRUPS in H.
      rewrite (not_contains _ _ Hnew) in H.
      destruct (Z.leb_spec 4 (len (_syrups (self w)))); [lia|exact H]. }
    destruct (price_steps _ bs sz Hv1 Hb Hs) as [p' [p0' [Hp' [Hp0' [Hc' _]]]]].
    unfold w1 in Hp0', Hc'.
    cbn [self set_attr_syrups set_attr_shots _milk _iced _syrups _shots] in Hp0', Hc'.
    rewrite Hp0 in Hp0'. injection Hp0' as <-.
    exists p'. split.
    + rewrite (price_after_ok _ w w1 bs sz Hadd Hv1 Hb Hs). exact Hp'.
    + rewrite len_app in Hc'. lia.
  - intros count Hpos Hfit.
    pose proof (add_shot_adds w count Hpos Hfit) as Hadd.
    set (w1 := mkWorld (set_attr_shots (_shots (self w) + count) (self w))
                       (store w)) in *.
    assert (valid (self w1) = true) as Hv1.
    { pose proof (next_valid (AddShot count) _ Hv) as H. unfold next, MAX_SHOTS in H.
      destruct (Z.ltb_spec count 0); [lia|].
      destruct (Z.ltb_spec 3 (_shots (self w) + count)); [lia|exact H]. }
    destruct (price_steps _ bs sz Hv1 Hb Hs) as [p' [p0' [Hp' [Hp0' [Hc' _]]]]].
    unfold w1 in Hp0', Hc'.
    cbn [self set_attr_syrups set_attr_shots _milk _iced _syrups _shots] in Hp0', Hc'.
    rewrite Hp0 in Hp0'. injection Hp0' as <-.
    exists p'. split.
    + rewrite (price_after_ok _ w w1 bs sz Hadd Hv1 Hb Hs). exact Hp'.
    + lia.
Qed.

Lemma X10_extras_add_up_witness :
  exists p p',
    price_after (ret tt) (mkWorld (mkCoffeeOrderBuilder (Some "cappuccino")
                                     (Some "medium") "oat" ["mint"] 0 true 1) [])
    = Some p
    /\ price_after (add_shot 2) (mkWorld (mkCoffeeOrderBuilder (Some "cappuccino")
                                            (Some "medium") "oat" ["mint"] 0 true 1) [])
       = Some p'
    /\ cents p' = cents p + 14000.
Proof.
  destruct (X10_extras_add_up
              (mkWorld (mkCoffeeOrderBuilder (Some "cappuccino") (Some "medium")
                          "oat" ["mint"] 0 true 1) [])
              "cappuccino" "medium" eq_refl eq_refl eq_refl)
    as [p [Hp [_ Hshot]]].
  destruct (Hshot 2) as [p' [Hp' Hc]]; [lia|simpl; lia|].
  exists p, p'. repeat split; assumption.
Defined.

Lemma built_price_in_range (b : CoffeeOrderBuilder) (bs sz : string) (p : float) :
  valid b = true -> _base b = Some bs -> _size b = Some sz ->
  price_of bs sz (_milk b) (len (_syrups b)) (_shots b) (_iced b) = Ok p ->
  price_in_range (order_of bs sz b p).
Proof.
  intros Hv Hb Hs Hp.
  destruct (price_steps b bs sz Hv Hb Hs) as [q [_ [Hq [_ [_ [Hlo Hhi]]]]]].
  pose proof (price_of_formula _ (valid_config _ _ _ Hv Hb Hs)) as Hf.
  rewrite <- (price_spec_config b bs sz Hb Hs) in Hf. rewrite Hq in Hf.
  change (at_config price_of (config_of bs sz b))
    with (price_of bs sz (_milk b) (len (_syrups b)) (_shots b) (_iced b)) in Hf.
  rewrite Hp in Hf. simpl in Hf. injection Hf as ->.
  split; assumption.
Qed.

(** X11. Every order built along a run from a new builder costs at least
    200.0, the small espresso, and at most 967.6, the large iced cappuccino
    with oat milk, four syrups and three shots. *)
Theorem X11_price_range :
  forall cs, Forall price_in_range (store (run cs fresh)).
Proof.
  intros cs. apply run_preserves.
  - exact built_price_in_range.
  - reflexivity.
  - constructor.
Qed.

(** ** What the price does not read *)

(** X12. The price reads the number of syrups, not their names, and does
    not read the sugar: two builders with the same base, size, milk, iced
    flag and shots and as many syrups get the same result from
    [_calc_price], the same float or the same exception. *)
Theorem X12_price_ignores_names_and_sugar :
  forall w1 w2,
    _base (self w1) = _base (self w2) -> _size (self w1) = _size (self w2) ->
    _milk (self w1) = _milk (self w2) -> _iced (self w1) = _iced (self w2) ->
    _shots (self w1) = _shots (self w2) ->
    len (_syrups (self w1)) = len (_syrups (self w2)) ->
    fst (_calc_price w1) = fst (_calc_price w2).
Proof.
  intros w1 w2 Hb Hs Hm Hi Hk Hn.
  destruct (_base (self w2)) as [bs|] eqn:Eb.
  - destruct (_size (self w2)) as [sz|] eqn:Es.
    + rewrite (calc_price_eq w1 bs sz Hb Hs), (calc_price_eq w2 bs sz Eb Es).
      simpl. rewrite Hm, Hi, Hk, Hn. reflexivity.
    + unfold _calc_price, bind, attr, assert_not_none.
      rewrite Hb, Eb. cbn. rewrite Hs, Es. reflexivity.
  - unfold _calc_price, bind, attr, assert_not_none. rewrite Hb, Eb. reflexivity.
Qed.

Lemma X12_price_ignores_names_and_sugar_witness :
  fst (_calc_price (mkWorld (mkCoffeeOrderBuilder (Some "latte") (Some "large") "soy"
                               ["mint"; "rose"] 5 true 1) []))
  = fst (_calc_price (mkWorld (mkCoffeeOrderBuilder (Some "latte") (Some "large") "soy"
                                 ["vanilla"; "caramel"] 0 true 1) [])).
Proof.
  apply X12_price_ignores_names_and_sugar; reflexivity.
Defined.
